(** * CSS selector builder and JSON helpers of [08-objects-tasks.js]

    A shallow embedding of [src/js/practice/task/08-objects-tasks.js]:
    the class [CssSelectorBuilder], the facade [cssSelectorBuilder], the
    constructor [Rectangle] and the helpers [getJSON] and [fromJSON].

    JavaScript methods mutate [this] and may throw.  A method is embedded as
    a function from the state of [this] before the call to a completion
    (normal result or thrown exception) together with the state of [this]
    after the call: the state survives a [throw], as it does in JavaScript. *)

From Stdlib Require Import ZArith Ascii String.
From stdpp Require Import base option list strings gmap pretty.

Local Open Scope Z_scope.
Local Open Scope string_scope.

(** ** Completions and the method monad *)

Module Js.

(** The exceptions the file can raise: [new Error(message)] thrown by the
    builder, and the built-in [TypeError] and [SyntaxError] raised by the
    platform functions used in [fromJSON]. *)
Inductive Exception : Type :=
| Error (message : string)
| TypeError
| SyntaxError.

Inductive Completion (A : Type) : Type :=
| Normal (a : A)
| Throw (e : Exception).
Arguments Normal {A} a.
Arguments Throw {A} e.

Definition is_normal {A} (c : Completion A) : bool :=
  match c with Normal _ => true | Throw _ => false end.

(** A method of an object whose state has type [S]. *)
Definition Method (S A : Type) : Type := S -> Completion A * S.

Definition ret {S A} (a : A) : Method S A := fun this => (Normal a, this).

Definition bind {S A B} (m : Method S A) (k : A -> Method S B) : Method S B :=
  fun this =>
    match m this with
    | (Normal a, this') => k a this'
    | (Throw e, this') => (Throw e, this')
    end.

Definition throw {S A} (e : Exception) : Method S A := fun this => (Throw e, this).

(** Read a field of [this], and assign the state of [this]. *)
Definition gets {S A} (f : S -> A) : Method S A := fun this => (Normal (f this), this).
Definition put {S} (s : S) : Method S unit := fun _ => (Normal tt, s).

(** The completion of a call evaluated outside [this] (a call on another
    object) continues the method or propagates its exception. *)
Definition lift {S A} (c : Completion A) : Method S A := fun this => (c, this).

(** [this.m()] seen from the caller: the completion, and the object after. *)
Definition completion {S A} (m : Method S A) (this : S) : Completion A := fst (m this).
Definition after {S A} (m : Method S A) (this : S) : S := snd (m this).

(** [c.m()] where [c] is the completion of the expression before the dot:
    the call is made on the object [c] returned, unless [c] threw. *)
Definition dot {S A} (c : Completion S) (m : Method S A) : Completion A :=
  match c with
  | Normal this => completion m this
  | Throw e => Throw e
  end.

End Js.

Import Js.

(** Sequencing is written with stdpp's monad notations:
    [x ← m; k] and [m;; k]. *)
#[export] Instance method_ret {S} : MRet (Method S) := @Js.ret S.
#[export] Instance method_bind {S} : MBind (Method S) :=
  fun A B k m => Js.bind m k.

(** ** The selector builder *)

Module Css.

(** An element of [this.selectors]: the object literal [{ type, value }].
    [combine] pushes [{ value }], whose [type] is [undefined]: [None]. *)
Record Selector : Type := { type : option string; value : string }.

(** The state of a [CssSelectorBuilder].  The constructor initialises
    [this.order] with a literal that no method assigns afterwards, so the
    table is the constant [order] below rather than a field. *)
Record CssSelectorBuilder : Type := { selectors : list Selector }.

Definition order : gmap string Z :=
  list_to_map
    [ ("element", 0); ("id", 1); ("class", 2);
      ("attr", 3); ("pseudoClass", 4); ("pseudoElement", 5) ].

(** [constructor()]: [this.selectors = []]. *)
Definition constructor : CssSelectorBuilder := {| selectors := [] |}.

(** [this.order[key]]: an [undefined] key is the property name
    ["undefined"]; a missing property reads as [undefined] ([None]).  The
    keys read here are the six names of the table and ["undefined"], none
    of which [Object.prototype] defines. *)
Definition property_key (key : option string) : string :=
  match key with Some k => k | None => "undefined" end.

Definition order_get (key : option string) : option Z := order !! property_key key.

(** [a > b] on numbers or [undefined]: [undefined] converts to [NaN], and
    every comparison with [NaN] is [false]. *)
Definition js_gt (a b : option Z) : bool :=
  match a, b with
  | Some x, Some y => Z.gtb x y
  | _, _ => false
  end.

(** [a === b] on a string or [undefined]. *)
Definition strict_eq (a b : option string) : bool := bool_decide (a = b).

Definition DuplicateSelector : Exception :=
  Error "Element, id and pseudo-element should not occur more then one time inside the selector".

Definition OrderViolation : Exception :=
  Error "Selector parts should be arranged in the following order: element, id, class, attribute, pseudo-class, pseudo-element".

Definition checkCount (type' : string) : Method CssSelectorBuilder unit :=
  this_selectors ← gets selectors;
  let hasSelector :=
    existsb (fun selector => strict_eq (type selector) (Some type')) this_selectors in
  if hasSelector then throw DuplicateSelector else ret tt.

(** [this.selectors.slice(-1)] holds the last element; destructuring an
    empty array would bind [prevSelector] to [undefined], whose [.type]
    raises a [TypeError] (not reachable under the length test). *)
Definition checkOrder (type' : string) : Method CssSelectorBuilder unit :=
  this_selectors ← gets selectors;
  if negb (Nat.eqb (length this_selectors) 0) then
    match last this_selectors with
    | Some prevSelector =>
        if js_gt (order_get (type prevSelector)) (order_get (Some type'))
        then throw OrderViolation
        else ret tt
    | None => throw TypeError
    end
  else ret tt.

(** [this.selectors.push(selector)]. *)
Definition push (selector : Selector) : Method CssSelectorBuilder unit :=
  this_selectors ← gets selectors;
  put {| selectors := this_selectors ++ [selector] |}.

(** [return this]. *)
Definition return_this : Method CssSelectorBuilder CssSelectorBuilder :=
  gets (fun this => this).

Definition element (value' : string) : Method CssSelectorBuilder CssSelectorBuilder :=
  let type' := "element" in
  checkOrder type';;
  checkCount type';;
  push {| type := Some type'; value := value' |};;
  return_this.

Definition id (value' : string) : Method CssSelectorBuilder CssSelectorBuilder :=
  let type' := "id" in
  checkOrder type';;
  checkCount type';;
  push {| type := Some type'; value := "#" +:+ value' |};;
  return_this.

Definition class (value' : string) : Method CssSelectorBuilder CssSelectorBuilder :=
  let type' := "class" in
  checkOrder type';;
  push {| type := Some type'; value := "." +:+ value' |};;
  return_this.

Definition attr (value' : string) : Method CssSelectorBuilder CssSelectorBuilder :=
  let type' := "attr" in
  checkOrder type';;
  push {| type := Some type'; value := "[" +:+ value' +:+ "]" |};;
  return_this.

Definition pseudoClass (value' : string) : Method CssSelectorBuilder CssSelectorBuilder :=
  let type' := "pseudoClass" in
  checkOrder type';;
  push {| type := Some type'; value := ":" +:+ value' |};;
  return_this.

Definition pseudoElement (value' : string) : Method CssSelectorBuilder CssSelectorBuilder :=
  let type' := "pseudoElement" in
  checkOrder type';;
  checkCount type';;
  push {| type := Some type'; value := "::" +:+ value' |};;
  return_this.

(** [this.selectors.map((selector) => selector.value).join('')]. *)
Definition stringify : Method CssSelectorBuilder string :=
  this_selectors ← gets selectors;
  ret (String.concat "" (map value this_selectors)).

(** The arguments of [combine] are objects with a [stringify] method; they
    are read when the call is made, so an argument is the state its object
    has at that moment. *)
Class Stringifiable (A : Type) : Type := call_stringify : A -> Completion string.

#[export] Instance builder_stringifiable : Stringifiable CssSelectorBuilder :=
  fun selector => completion stringify selector.

Definition combine {A B} `{Stringifiable A} `{Stringifiable B}
    (selector1 : A) (combinator : string) (selector2 : B)
    : Method CssSelectorBuilder CssSelectorBuilder :=
  s1 ← lift (call_stringify selector1);
  s2 ← lift (call_stringify selector2);
  push {| type := None; value := s1 +:+ " " +:+ combinator +:+ " " +:+ s2 |};;
  return_this.

(** *** Chains of calls

    The six fragment-appending methods, named by an enumeration so that a
    chain [b.m1(v1).m2(v2)...] is a list of calls. *)
Inductive Kind : Type :=
| Element | Id | Class | Attr | PseudoClass | PseudoElement.

#[export] Instance kind_eq_dec : EqDecision Kind.
Proof. solve_decision. Defined.

(** The [type] string the method of that name stores. *)
Definition kind_type (k : Kind) : string :=
  match k with
  | Element => "element"
  | Id => "id"
  | Class => "class"
  | Attr => "attr"
  | PseudoClass => "pseudoClass"
  | PseudoElement => "pseudoElement"
  end.

Definition append (k : Kind) (value' : string)
    : Method CssSelectorBuilder CssSelectorBuilder :=
  match k with
  | Element => element value'
  | Id => id value'
  | Class => class value'
  | Attr => attr value'
  | PseudoClass => pseudoClass value'
  | PseudoElement => pseudoElement value'
  end.

(** Every method returns [this], so a chained call runs on the same
    object: a chain is the sequence of its calls on one state. *)
Fixpoint chain (calls : list (Kind * string)) : Method CssSelectorBuilder unit :=
  match calls with
  | [] => ret tt
  | (k, value') :: rest => append k value';; chain rest
  end.

(** The facade: every entry point calls the method of the same name on
    [new CssSelectorBuilder()].  The caller receives the completion only:
    the returned [this], or the exception. *)
Module cssSelectorBuilder.

Definition element (value' : string) : Completion CssSelectorBuilder :=
  completion (element value') constructor.

Definition id (value' : string) : Completion CssSelectorBuilder :=
  completion (id value') constructor.

Definition class (value' : string) : Completion CssSelectorBuilder :=
  completion (class value') constructor.

Definition attr (value' : string) : Completion CssSelectorBuilder :=
  completion (attr value') constructor.

Definition pseudoClass (value' : string) : Completion CssSelectorBuilder :=
  completion (pseudoClass value') constructor.

Definition pseudoElement (value' : string) : Completion CssSelectorBuilder :=
  completion (pseudoElement value') constructor.

Definition combine {A B} `{Stringifiable A} `{Stringifiable B}
    (selector1 : A) (combinator : string) (selector2 : B)
    : Completion CssSelectorBuilder :=
  completion (combine selector1 combinator selector2) constructor.

End cssSelectorBuilder.

(** The facade entry point of a kind. *)
Definition facade (k : Kind) (value' : string) : Completion CssSelectorBuilder :=
  match k with
  | Element => cssSelectorBuilder.element value'
  | Id => cssSelectorBuilder.id value'
  | Class => cssSelectorBuilder.class value'
  | Attr => cssSelectorBuilder.attr value'
  | PseudoClass => cssSelectorBuilder.pseudoClass value'
  | PseudoElement => cssSelectorBuilder.pseudoElement value'
  end.

(** *** Vocabulary of the specification *)

(** Kind-rank: Element=0, Id=1, Class=2, Attribute=3, PseudoClass=4,
    PseudoElement=5. *)
Definition kind_rank (k : Kind) : Z :=
  match k with
  | Element => 0
  | Id => 1
  | Class => 2
  | Attr => 3
  | PseudoClass => 4
  | PseudoElement => 5
  end.

(** The documented rendered forms: [v], [#v], [.v], [[v]], [:v], [::v]. *)
Definition documented_form (call : Kind * string) : string :=
  let (k, v) := call in
  match k with
  | Element => v
  | Id => "#" +:+ v
  | Class => "." +:+ v
  | Attr => "[" +:+ v +:+ "]"
  | PseudoClass => ":" +:+ v
  | PseudoElement => "::" +:+ v
  end.

(** The kinds with cardinality limit 1. *)
Definition limited (k : Kind) : bool :=
  match k with
  | Element | Id | PseudoElement => true
  | Class | Attr | PseudoClass => false
  end.

(** Kinds of a chain in non-decreasing kind-rank order. *)
Fixpoint ranks_nondecreasing (calls : list (Kind * string)) : bool :=
  match calls with
  | [] => true
  | (k, _) :: rest =>
      match rest with
      | [] => true
      | (k', _) :: _ => Z.leb (kind_rank k) (kind_rank k') && ranks_nondecreasing rest
      end
  end.

Definition calls_of_kind (k : Kind) (calls : list (Kind * string)) : nat :=
  length (filter (fun call => call.1 = k) calls).

(** A chain respects the cardinality limits when each limited kind is
    called at most once. *)
Definition respects_cardinality (calls : list (Kind * string)) : bool :=
  forallb (fun k => negb (limited k) || Nat.leb (calls_of_kind k calls) 1)
    [Element; Id; Class; Attr; PseudoClass; PseudoElement].

(** The builder after [this.selectors.push(selector)]. *)
Definition pushed (this : CssSelectorBuilder) (selector : Selector) : CssSelectorBuilder :=
  {| selectors := selectors this ++ [selector] |}.

(** The fragment a call of kind [k] on [v] stands for. *)
Definition fragment (call : Kind * string) : Selector :=
  {| type := Some (kind_type call.1); value := documented_form call |}.

(** The fragment [combine] stands for. *)
Definition combined (left combinator right : string) : Selector :=
  {| type := None; value := left +:+ " " +:+ combinator +:+ " " +:+ right |}.

(** The rank of the last-appended fragment, if there is one and it has a
    rank, is not above the rank of [type']. *)
Definition order_ok (type' : string) (this : CssSelectorBuilder) : bool :=
  match last (selectors this) with
  | Some prevSelector =>
      negb (js_gt (order_get (type prevSelector)) (order_get (Some type')))
  | None => true
  end.

(** Number of fragments of a builder whose [type] is the given string. *)
Definition occurrences (type' : string) (this : CssSelectorBuilder) : nat :=
  length (filter (fun selector => type selector = Some type') (selectors this)).

(** Every limited kind occurs at most once. *)
Definition at_most_once (this : CssSelectorBuilder) : Prop :=
  forall k, limited k = true -> (occurrences (kind_type k) this <= 1)%nat.

(** Builder states reachable through the public operations: a facade
    entry point, then successful method calls. *)
Inductive reachable : CssSelectorBuilder -> Prop :=
| reachable_facade_append k v this :
    facade k v = Normal this -> reachable this
| reachable_facade_combine {A B} `{Stringifiable A} `{Stringifiable B}
    (selector1 : A) combinator (selector2 : B) this :
    cssSelectorBuilder.combine selector1 combinator selector2 = Normal this ->
    reachable this
| reachable_append k v this r this' :
    reachable this -> append k v this = (Normal r, this') -> reachable this'
| reachable_combine {A B} `{Stringifiable A} `{Stringifiable B}
    (selector1 : A) combinator (selector2 : B) this r this' :
    reachable this ->
    combine selector1 combinator selector2 this = (Normal r, this') ->
    reachable this'.

(** Sample builders: [element('div').class('box')],
    [element('a').id('b')] and [element('div').id('main')]. *)
Definition div_box : CssSelectorBuilder :=
  {| selectors := [fragment (Element, "div"); fragment (Class, "box")] |}.

Definition a_b : CssSelectorBuilder :=
  {| selectors := [fragment (Element, "a"); fragment (Id, "b")] |}.

Definition div_main : CssSelectorBuilder :=
  {| selectors := [fragment (Element, "div"); fragment (Id, "main")] |}.

Definition table_data : CssSelectorBuilder :=
  {| selectors := [fragment (Element, "table"); fragment (Id, "data")] |}.

(** No fragment is directly followed by one of lower rank. *)
Fixpoint ranks_in_order (l : list Selector) : bool :=
  match l with
  | [] => true
  | prevSelector :: rest =>
      match rest with
      | [] => true
      | next :: _ =>
          negb (js_gt (order_get (type prevSelector)) (order_get (type next)))
          && ranks_in_order rest
      end
  end.

(** The [type] of a fragment is absent or the name of a kind. *)
Definition well_typed (selector : Selector) : Prop :=
  type selector = None \/ exists k, type selector = Some (kind_type k).

(** An argument of [combine] without a [stringify] method, such as
    [undefined]: the call [selector.stringify()] raises a [TypeError]. *)
Inductive NoStringify : Type := no_stringify.

#[export] Instance no_stringify_stringifiable : Stringifiable NoStringify :=
  fun _ => Throw TypeError.

(** The statement that a second [element], [id] or [pseudoElement] is
    always reported as a duplicate, whatever lies in between. *)
Definition duplicate_always_reported : Prop :=
  forall (this : CssSelectorBuilder) (k : Kind) (v : string),
    limited k = true ->
    (0 < occurrences (kind_type k) this)%nat ->
    completion (append k v) this = Throw DuplicateSelector.

End Css.

(** ** [Rectangle], [getJSON] and [fromJSON] *)

Module Objects.

(** The values of the interchange format.  A number is an integer; the
    properties of an object are listed in the order in which the object
    enumerates its own keys. *)
#[warnings="-register-all"]
Inductive Json : Type :=
| JNull
| JBool (b : bool)
| JNumber (n : Z)
| JString (s : string)
| JArray (elements : list Json)
| JObject (properties : list (string * Json)).

(** The platform functions [JSON.stringify], [JSON.parse],
    [Object.getOwnPropertyDescriptors] and [Object.create] are not part of
    the file; they are modelled after ECMAScript on a fragment: integers
    that a double holds exactly, ASCII strings, no [\u] escapes.  A result
    [None] says that the input lies outside that fragment, where the model
    makes no statement. *)
Definition Partial (A : Type) : Type := option (Completion A).

Definition pbind {A B} (m : Partial A) (k : A -> Partial B) : Partial B :=
  match m with
  | Some (Normal a) => k a
  | Some (Throw e) => Some (Throw e)
  | None => None
  end.

Notation "'let*' x ':=' m 'in' k" := (pbind m (fun x => k))
  (at level 10, x pattern, m at level 100, k at level 200, only parsing).

Definition safe_integer (n : Z) : bool :=
  Z.leb (- (2 ^ 53 - 1)) n && Z.leb n (2 ^ 53 - 1).

Definition dquote : ascii := "034"%char.
Definition backslash : ascii := "092"%char.

(** *** [JSON.stringify] *)

Definition hex_digit (n : N) : ascii :=
  ascii_of_N (if N.ltb n 10 then 48 + n else 87 + n).

(** QuoteJSONString, one character. *)
Definition quote_char (c : ascii) : option string :=
  let n := N_of_ascii c in
  if N.eqb n 8 then Some (String backslash "b")
  else if N.eqb n 9 then Some (String backslash "t")
  else if N.eqb n 10 then Some (String backslash "n")
  else if N.eqb n 12 then Some (String backslash "f")
  else if N.eqb n 13 then Some (String backslash "r")
  else if N.eqb n 34 then Some (String backslash (String dquote ""))
  else if N.eqb n 92 then Some (String backslash (String backslash ""))
  else if N.ltb n 32 then
    Some (String backslash
           (String "u" (String "0" (String "0"
             (String (hex_digit (N.div n 16)) (String (hex_digit (N.modulo n 16)) ""))))))
  else if N.ltb n 128 then Some (String c "")
  else None.

Fixpoint quote_chars (s : string) : option string :=
  match s with
  | EmptyString => Some ""
  | String c rest =>
      q ← quote_char c; qs ← quote_chars rest; Some (q +:+ qs)
  end.

Definition QuoteJSONString (s : string) : option string :=
  qs ← quote_chars s; Some (String dquote qs +:+ String dquote "").

Fixpoint SerializeJSONProperty (v : Json) : option string :=
  match v with
  | JNull => Some "null"
  | JBool true => Some "true"
  | JBool false => Some "false"
  | JNumber n => if safe_integer n then Some (pretty n) else None
  | JString s => QuoteJSONString s
  | JArray elements =>
      partial ←
        (fix serialize_elements (l : list Json) : option (list string) :=
           match l with
           | [] => Some []
           | e :: rest =>
               se ← SerializeJSONProperty e;
               srest ← serialize_elements rest;
               Some (se :: srest)
           end) elements;
      Some ("[" +:+ String.concat "," partial +:+ "]")
  | JObject properties =>
      partial ←
        (fix serialize_properties (l : list (string * Json)) : option (list string) :=
           match l with
           | [] => Some []
           | (key, e) :: rest =>
               sk ← QuoteJSONString key;
               se ← SerializeJSONProperty e;
               srest ← serialize_properties rest;
               Some ((sk +:+ ":" +:+ se) :: srest)
           end) properties;
      Some ("{" +:+ String.concat "," partial +:+ "}")
  end.

Definition JSON_stringify (v : Json) : option string := SerializeJSONProperty v.

(** *** [JSON.parse] *)

Definition is_whitespace (c : ascii) : bool :=
  let n := N_of_ascii c in
  N.eqb n 9 || N.eqb n 10 || N.eqb n 13 || N.eqb n 32.

Fixpoint skip_whitespace (s : string) : string :=
  match s with
  | String c rest => if is_whitespace c then skip_whitespace rest else s
  | EmptyString => s
  end.

Definition digit_of (c : ascii) : option Z :=
  let n := Z.of_N (N_of_ascii c) in
  if Z.leb 48 n && Z.leb n 57 then Some (n - 48) else None.

Fixpoint read_digits (s : string) (acc : Z) : Z * string :=
  match s with
  | String c rest =>
      match digit_of c with
      | Some d => read_digits rest (10 * acc + d)
      | None => (acc, s)
      end
  | EmptyString => (acc, s)
  end.

Definition starts_fraction_or_exponent (s : string) : bool :=
  match s with
  | String c _ =>
      let n := N_of_ascii c in N.eqb n 46 || N.eqb n 69 || N.eqb n 101
  | EmptyString => false
  end.

Definition starts_digit (s : string) : bool :=
  match s with
  | String c _ => bool_decide (is_Some (digit_of c))
  | EmptyString => false
  end.

(** An optional minus sign, then a single zero or a digit other than zero
    followed by digits; a fraction or an exponent is outside the fragment. *)
Definition parse_number (s : string) : Partial (Json * string) :=
  let (negative, s1) :=
    match s with
    | String "-"%char rest => (true, rest)
    | _ => (false, s)
    end in
  match s1 with
  | String c rest =>
      match digit_of c with
      | None => Some (Throw SyntaxError)
      | Some d =>
          let (n, rest') := if Z.eqb d 0 then (0, rest) else read_digits rest d in
          if Z.eqb d 0 && starts_digit rest' then Some (Throw SyntaxError)
          else if starts_fraction_or_exponent rest' then None
          else if safe_integer n
               then Some (Normal (JNumber (if negative then - n else n), rest'))
               else None
      end
  | EmptyString => Some (Throw SyntaxError)
  end.

(** The character an escape [\c] denotes: [Some (Some ch)]; [\u]:
    [Some None]; no escape: [None]. *)
Definition unescape (c : ascii) : option (option ascii) :=
  let n := N_of_ascii c in
  if N.eqb n 34 || N.eqb n 92 || N.eqb n 47 then Some (Some c)
  else if N.eqb n 98 then Some (Some "008"%char)
  else if N.eqb n 102 then Some (Some "012"%char)
  else if N.eqb n 110 then Some (Some "010"%char)
  else if N.eqb n 114 then Some (Some "013"%char)
  else if N.eqb n 116 then Some (Some "009"%char)
  else if N.eqb n 117 then Some None
  else None.

(** The characters of a string literal after its opening quote. *)
Fixpoint parse_string_body (s : string) : Partial (string * string) :=
  match s with
  | EmptyString => Some (Throw SyntaxError)
  | String c rest =>
      let n := N_of_ascii c in
      if N.eqb n 34 then Some (Normal ("", rest))
      else if N.eqb n 92 then
        match rest with
        | String e rest' =>
            match unescape e with
            | Some (Some ch) =>
                let* (body, after) := parse_string_body rest' in
                Some (Normal (String ch body, after))
            | Some None => None
            | None => Some (Throw SyntaxError)
            end
        | EmptyString => Some (Throw SyntaxError)
        end
      else if N.ltb n 32 then Some (Throw SyntaxError)
      else if N.leb 128 n then None
      else
        let* (body, after) := parse_string_body rest in
        Some (Normal (String c body, after))
  end.

Fixpoint strip_prefix (prefix s : string) : option string :=
  match prefix, s with
  | EmptyString, _ => Some s
  | String p prefix', String c rest =>
      if Ascii.eqb p c then strip_prefix prefix' rest else None
  | String _ _, EmptyString => None
  end.

Definition parse_literal (word : string) (v : Json) (s : string) : Partial (Json * string) :=
  match strip_prefix word s with
  | Some rest => Some (Normal (v, rest))
  | None => Some (Throw SyntaxError)
  end.

(** A key is an array index when it is the canonical decimal form of an
    integer between 0 and 2^32 - 2. *)
Definition array_index (key : string) : option Z :=
  match read_digits key 0 with
  | (n, EmptyString) =>
      if String.eqb (pretty n) key && Z.leb n (2 ^ 32 - 2) then Some n else None
  | _ => None
  end.

(** Creating a data property [key] on an ordinary object: an existing key
    keeps its place and takes the new value; a new array index goes among
    the array indices, in ascending order; any other new key goes last. *)
Fixpoint insert_index {V} (n : Z) (key : string) (v : V)
    (properties : list (string * V)) : list (string * V) :=
  match properties with
  | [] => [(key, v)]
  | (key', v') :: rest =>
      match array_index key' with
      | Some n' =>
          if Z.ltb n' n then (key', v') :: insert_index n key v rest
          else (key, v) :: properties
      | None => (key, v) :: properties
      end
  end.

Fixpoint replace_value {V} (key : string) (v : V)
    (properties : list (string * V)) : option (list (string * V)) :=
  match properties with
  | [] => None
  | (key', v') :: rest =>
      if String.eqb key' key then Some ((key', v) :: rest)
      else rest' ← replace_value key v rest; Some ((key', v') :: rest')
  end.

Definition CreateDataProperty {V} (properties : list (string * V))
    (key : string) (v : V) : list (string * V) :=
  match replace_value key v properties with
  | Some properties' => properties'
  | None =>
      match array_index key with
      | Some n => insert_index n key v properties
      | None => properties ++ [(key, v)]
      end
  end.

(** The elements of an array after its opening bracket and first
    non-blank character, and the members of an object likewise.  [value]
    parses one value, [n] bounds the number of elements. *)
Fixpoint parse_elements (value : string -> Partial (Json * string))
    (n : nat) (s : string) (acc : list Json) : Partial (Json * string) :=
  match n with
  | O => None
  | S n' =>
      let* (v, rest) := value s in
      match skip_whitespace rest with
      | String ","%char rest' => parse_elements value n' rest' (acc ++ [v])
      | String "]"%char rest' => Some (Normal (JArray (acc ++ [v]), rest'))
      | _ => Some (Throw SyntaxError)
      end
  end.

Fixpoint parse_members (value : string -> Partial (Json * string))
    (n : nat) (s : string) (acc : list (string * Json)) : Partial (Json * string) :=
  match n with
  | O => None
  | S n' =>
      match skip_whitespace s with
      | String c rest =>
          if Ascii.eqb c dquote then
            let* (key, rest1) := parse_string_body rest in
            match skip_whitespace rest1 with
            | String ":"%char rest2 =>
                let* (v, rest3) := value rest2 in
                let acc' := CreateDataProperty acc key v in
                match skip_whitespace rest3 with
                | String ","%char rest4 => parse_members value n' rest4 acc'
                | String "}"%char rest4 => Some (Normal (JObject acc', rest4))
                | _ => Some (Throw SyntaxError)
                end
            | _ => Some (Throw SyntaxError)
            end
          else Some (Throw SyntaxError)
      | EmptyString => Some (Throw SyntaxError)
      end
  end.

(** One value, after optional blanks.  [fuel] bounds the nesting depth
    and the length of arrays and objects; [JSON_parse] supplies the length
    of the text, and running out of it is reported as [None]. *)
Fixpoint parse_value (fuel : nat) (s : string) : Partial (Json * string) :=
  match fuel with
  | O => None
  | S fuel' =>
      match skip_whitespace s with
      | EmptyString => Some (Throw SyntaxError)
      | String c rest =>
          let n := N_of_ascii c in
          if N.eqb n 123 then
            match skip_whitespace rest with
            | String "}"%char rest' => Some (Normal (JObject [], rest'))
            | _ => parse_members (parse_value fuel') fuel' rest []
            end
          else if N.eqb n 91 then
            match skip_whitespace rest with
            | String "]"%char rest' => Some (Normal (JArray [], rest'))
            | _ => parse_elements (parse_value fuel') fuel' rest []
            end
          else if N.eqb n 34 then
            let* (body, after) := parse_string_body rest in
            Some (Normal (JString body, after))
          else if N.eqb n 110 then parse_literal "null" JNull (String c rest)
          else if N.eqb n 116 then parse_literal "true" (JBool true) (String c rest)
          else if N.eqb n 102 then parse_literal "false" (JBool false) (String c rest)
          else if N.leb 128 n then None
          else parse_number (String c rest)
      end
  end.

Definition JSON_parse (text : string) : Partial Json :=
  let* (v, rest) := parse_value (S (String.length text)) text in
  match skip_whitespace rest with
  | EmptyString => Some (Normal v)
  | String c _ => if N.leb 128 (N_of_ascii c) then None else Some (Throw SyntaxError)
  end.

(** *** Objects, property descriptors and prototypes *)

Record PropertyDescriptor : Type :=
  { desc_value : Json; writable : bool; enumerable : bool; configurable : bool }.

Definition data_property (v : Json) : PropertyDescriptor :=
  {| desc_value := v; writable := true; enumerable := true; configurable := true |}.

(** A prototype object holds methods.  A method receives the read access
    to the own data properties of [this] ([None] for a missing one). *)
Record Prototype : Type :=
  { methods : list (string * ((string -> option Json) -> Partial Json)) }.

Record Object : Type :=
  { prototype : option Prototype;
    own : list (string * PropertyDescriptor) }.

(** A value passed where a prototype is expected. *)
Inductive ProtoValue : Type :=
| ProtoObject (p : Prototype)
| ProtoNull
| ProtoPrimitive.

(** [[GetOwnProperty]]. *)
Fixpoint own_property (properties : list (string * PropertyDescriptor))
    (key : string) : option PropertyDescriptor :=
  match properties with
  | [] => None
  | (key', desc) :: rest =>
      if String.eqb key' key then Some desc else own_property rest key
  end.

(** [Object.getOwnPropertyDescriptors(v)].  [ToObject] raises a
    [TypeError] on [null]; a boolean or a number becomes a wrapper with no
    own property; a string wrapper owns its characters and [length]; an
    array owns its elements and [length]. *)
Definition indexed {V} (l : list V) : list (string * V) :=
  imap (fun i v => (pretty (Z.of_nat i), v)) l.

Definition characters (s : string) : list Json :=
  (fun c => JString (String c "")) <$> list_ascii_of_string s.

Definition Object_getOwnPropertyDescriptors (v : Json)
    : Partial (list (string * PropertyDescriptor)) :=
  match v with
  | JNull => Some (Throw TypeError)
  | JBool _ | JNumber _ => Some (Normal [])
  | JString s =>
      if forallb (fun c => N.ltb (N_of_ascii c) 128) (list_ascii_of_string s) then
        Some (Normal
          (indexed
             ((fun c => {| desc_value := c; writable := false;
                           enumerable := true; configurable := false |})
                <$> characters s)
           ++ [("length",
                {| desc_value := JNumber (Z.of_nat (String.length s)); writable := false;
                   enumerable := false; configurable := false |})])%list)
      else None
  | JArray elements =>
      Some (Normal
        (indexed (data_property <$> elements)
         ++ [("length",
              {| desc_value := JNumber (Z.of_nat (length elements)); writable := true;
                 enumerable := false; configurable := false |})])%list)
  | JObject properties =>
      Some (Normal ((fun entry => (entry.1, data_property entry.2)) <$> properties))
  end.

(** [Object.create(proto, properties)]: a [TypeError] unless [proto] is an
    object or [null]; otherwise a new object with that prototype, on which
    every descriptor of [properties] is defined, in key order. *)
Definition Object_create (proto : ProtoValue)
    (properties : list (string * PropertyDescriptor)) : Partial Object :=
  match proto with
  | ProtoObject p => Some (Normal {| prototype := Some p; own := properties |})
  | ProtoNull => Some (Normal {| prototype := None; own := properties |})
  | ProtoPrimitive => Some (Throw TypeError)
  end.

(** [a * b] on own data properties.  The product of two numbers is exact
    while it is a safe integer; a conversion of another value to a number
    is outside the fragment. *)
Definition multiply (a b : option Json) : Partial Json :=
  match a, b with
  | Some (JNumber x), Some (JNumber y) =>
      if safe_integer (x * y) then Some (Normal (JNumber (x * y))) else None
  | _, _ => None
  end.

(** [obj.key] for a key that the prototype chain does not define: the
    value of the own property, else [undefined] ([None]). *)
Definition Get (obj : Object) (key : string) : option Json :=
  desc_value <$> own_property (own obj) key.

Fixpoint find_method {F} (l : list (string * F)) (name : string) : option F :=
  match l with
  | [] => None
  | (name', f) :: rest => if String.eqb name' name then Some f else find_method rest name
  end.

(** [obj.name()].  An own property shadows the prototype and, holding
    data, is not callable.  A name that the prototype does not define
    leads to [Object.prototype], which is not modelled. *)
Definition call_method (obj : Object) (name : string) : Partial Json :=
  match own_property (own obj) name with
  | Some _ => Some (Throw TypeError)
  | None =>
      match prototype obj with
      | Some p =>
          match find_method (methods p) name with
          | Some f => f (Get obj)
          | None => None
          end
      | None => Some (Throw TypeError)
      end
  end.

(** *** The source *)

(** [Rectangle.prototype = { getArea() { return this.height * this.width; } }]. *)
Definition Rectangle_prototype : Prototype :=
  {| methods := [("getArea", fun this => multiply (this "height") (this "width"))] |}.

(** [new Rectangle(width, height)]. *)
Definition Rectangle (width height : Json) : Object :=
  {| prototype := Some Rectangle_prototype;
     own := CreateDataProperty
              (CreateDataProperty [] "width" (data_property width))
              "height" (data_property height) |}.

Definition getJSON (obj : Json) : option string := JSON_stringify obj.

Definition fromJSON (proto : ProtoValue) (json : string) : Partial Object :=
  let* parsed := JSON_parse json in
  let* descriptors := Object_getOwnPropertyDescriptors parsed in
  Object_create proto descriptors.

(** The object literal [{ height: 10, width: 20 }]. *)
Definition height10_width20 : Json :=
  JObject (CreateDataProperty (CreateDataProperty [] "height" (JNumber 10))
             "width" (JNumber 20)).

(** Its text, in which every key stands between double quotes. *)
Definition height10_width20_text : string :=
  "{" +:+ String dquote "height" +:+ String dquote ":10,"
  +:+ String dquote "width" +:+ String dquote ":20}".

(** *** Flat objects

    An object whose fields are integers, as [{ width: 10, height: 20 }].
    A plain key is made of printable ASCII characters other than the double
    quote and the backslash, and is not an array index, so that an object
    literal lists its fields in the order in which they are written. *)
Definition plain_char (c : ascii) : bool :=
  let n := N_of_ascii c in
  N.leb 32 n && N.ltb n 128 && negb (N.eqb n 34) && negb (N.eqb n 92).

Fixpoint plain (s : string) : bool :=
  match s with
  | EmptyString => true
  | String c rest => plain_char c && plain rest
  end.

Definition plain_key (key : string) : bool :=
  plain key && bool_decide (array_index key = None).

Definition member (field : string * Z) : string * Json := (field.1, JNumber field.2).

Definition flat_object (fields : list (string * Z)) : Json :=
  JObject (member <$> fields).

Definition member_text (field : string * Z) : string :=
  String dquote (field.1 +:+ String dquote (String ":" (pretty field.2))).

Definition field_ok (field : string * Z) : Prop :=
  plain_key field.1 = true /\ safe_integer field.2 = true.

(** The value is a string. *)
Definition is_string (v : Json) : bool :=
  match v with JString _ => true | _ => false end.

(** The text of a flat object: the members between braces, separated by
    commas. *)
Definition flat_text (fields : list (string * Z)) : string :=
  "{" +:+ String.concat "," (member_text <$> fields) +:+ "}".

End Objects.

(** * Properties *)

Import Css Objects.

(** ** Evaluating the methods *)

Section Evaluation.

Implicit Types (this : CssSelectorBuilder) (k : Kind) (v : string).

Lemma order_kind k : order_get (Some (kind_type k)) = Some (kind_rank k).
Proof. destruct k; vm_compute; reflexivity. Qed.

Lemma order_undefined : order_get None = None.
Proof. vm_compute. reflexivity. Qed.

Lemma kind_type_inj k k' : kind_type k = kind_type k' -> k = k'.
Proof. destruct k, k'; simpl; intros H; first [reflexivity | discriminate H]. Qed.

Lemma checkOrder_eq type' this :
  checkOrder type' this =
    (if order_ok type' this then Normal tt else Throw OrderViolation, this).
Proof.
  unfold checkOrder, order_ok, mbind, method_bind, Js.bind, gets.
  destruct (selectors this) as [|s l] eqn:E using rev_ind; [reflexivity|].
  rewrite length_app, Nat.add_comm. simpl. rewrite last_snoc.
  destruct (js_gt _ _); reflexivity.
Qed.

Lemma has_type_occurrences type' this :
  existsb (fun selector => strict_eq (type selector) (Some type')) (selectors this) = true
  <-> (0 < occurrences type' this)%nat.
Proof.
  unfold occurrences, strict_eq.
  induction (selectors this) as [|s l IH]; simpl.
  - split; [discriminate | lia].
  - rewrite filter_cons. case_bool_decide; case_decide; try contradiction; simpl.
    + split; [lia | reflexivity].
    + exact IH.
Qed.

Lemma checkCount_eq type' this :
  checkCount type' this =
    (if decide (0 < occurrences type' this)%nat
     then Throw DuplicateSelector else Normal tt, this).
Proof.
  unfold checkCount, mbind, method_bind, Js.bind, gets.
  pose proof (has_type_occurrences type' this) as H.
  destruct (existsb _ _); case_decide; try reflexivity.
  - exfalso. tauto.
  - exfalso. destruct H as [_ H]. specialize (H ltac:(assumption)). discriminate H.
Qed.

(** What a fragment-appending call does, in one equation: the order check,
    then the cardinality check for the limited kinds, then the push. *)
Lemma append_eq k v this :
  append k v this =
    if order_ok (kind_type k) this then
      if limited k && bool_decide (0 < occurrences (kind_type k) this)%nat
      then (Throw DuplicateSelector, this)
      else (Normal (pushed this (fragment (k, v))), pushed this (fragment (k, v)))
    else (Throw OrderViolation, this).
Proof.
  destruct k; simpl;
    unfold element, id, class, attr, pseudoClass, pseudoElement;
    unfold mbind, method_bind; unfold Js.bind at 1;
    rewrite checkOrder_eq; destruct (order_ok _ this); try reflexivity;
    try (unfold Js.bind at 1; rewrite checkCount_eq;
         case_bool_decide; case_decide; try contradiction; reflexivity).
Qed.

Lemma facade_eq k v : facade k v = completion (append k v) constructor.
Proof. destruct k; reflexivity. Qed.

(** A call that returns normally returns [this]. *)
Lemma append_returns_this k v this r this' :
  append k v this = (Normal r, this') -> r = this'.
Proof.
  rewrite append_eq. destruct (order_ok _ this); [|discriminate].
  destruct (limited k && _); [discriminate|]. congruence.
Qed.

Lemma stringify_eq this :
  stringify this = (Normal (String.concat "" (value <$> selectors this)), this).
Proof. reflexivity. Qed.

Lemma combine_eq {A B} `{Stringifiable A} `{Stringifiable B}
    (selector1 : A) (combinator : string) (selector2 : B) this :
  combine selector1 combinator selector2 this =
    match call_stringify selector1 with
    | Throw e => (Throw e, this)
    | Normal s1 =>
        match call_stringify selector2 with
        | Throw e => (Throw e, this)
        | Normal s2 =>
            (Normal (pushed this (combined s1 combinator s2)),
             pushed this (combined s1 combinator s2))
        end
    end.
Proof.
  unfold combine, mbind, method_bind, Js.bind, lift.
  destruct (call_stringify selector1); [|reflexivity].
  destruct (call_stringify selector2); reflexivity.
Qed.

Lemma occurrences_pushed type' this selector :
  occurrences type' (pushed this selector) =
    (occurrences type' this + if decide (type selector = Some type') then 1 else 0)%nat.
Proof.
  unfold occurrences, pushed. simpl.
  rewrite filter_app, length_app. f_equal.
  rewrite filter_cons, filter_nil. case_decide; reflexivity.
Qed.

End Evaluation.

(** ** Scenarios of the documentation *)

Section Scenarios.

Example id_class_class :
  dot (dot (dot (cssSelectorBuilder.id "main") (class "container")) (class "editable"))
      stringify
  = Normal "#main.container.editable".
Proof. reflexivity. Qed.

Example element_attr_pseudoClass :
  dot (dot (dot (cssSelectorBuilder.element "a")
                (attr ("href$=" +:+ String dquote ".png" +:+ String dquote "")))
           (pseudoClass "focus"))
      stringify
  = Normal ("a[href$=" +:+ String dquote ".png" +:+ String dquote "]:focus").
Proof. reflexivity. Qed.

Example element_id_builders :
  dot (cssSelectorBuilder.element "div") (id "main") = Normal div_main /\
  dot (cssSelectorBuilder.element "table") (id "data") = Normal table_data.
Proof. split; reflexivity. Qed.

Example combine_div_table :
  dot (cssSelectorBuilder.combine div_main "+" table_data) stringify
  = Normal "div#main + table#data".
Proof. reflexivity. Qed.

Example class_then_element :
  dot (cssSelectorBuilder.class "box") (element "div") = Throw OrderViolation.
Proof. reflexivity. Qed.

Example element_then_element :
  dot (cssSelectorBuilder.element "table") (element "div") = Throw DuplicateSelector.
Proof. reflexivity. Qed.

Example rectangle_area :
  call_method (Rectangle (JNumber 10) (JNumber 20)) "getArea" = Some (Normal (JNumber 200)).
Proof. vm_compute. reflexivity. Qed.

End Scenarios.

(** ** The order check *)

(** C3.  When the last-appended fragment has kind-rank [r], appending a
    fragment of a kind whose rank is below [r] throws the order error and
    leaves the builder as it was.  A kind of rank [r] or more passes the
    order check: [checkOrder] returns normally, and the appending call is
    decided by the cardinality check alone, so that it pushes the fragment
    unless the kind is limited and already present, and never throws the
    order error.  The order check comes first: below rank [r] the order
    error is thrown also when [checkCount] would throw. *)
Theorem order_check_on_last_fragment
    (this : CssSelectorBuilder) (prevSelector : Selector) (r : Z) (k : Kind) (v : string) :
  last (selectors this) = Some prevSelector ->
  order_get (type prevSelector) = Some r ->
  (kind_rank k < r -> append k v this = (Throw OrderViolation, this)) /\
  (r <= kind_rank k -> checkOrder (kind_type k) this = (Normal tt, this)) /\
  (r <= kind_rank k ->
   append k v this =
     if limited k && bool_decide (0 < occurrences (kind_type k) this)%nat
     then (Throw DuplicateSelector, this)
     else (Normal (pushed this (fragment (k, v))), pushed this (fragment (k, v)))) /\
  (kind_rank k < r ->
   completion (checkCount (kind_type k)) this = Throw DuplicateSelector ->
   completion (append k v) this = Throw OrderViolation).
Proof.
  intros Hlast Hrank.
  assert (Hok : order_ok (kind_type k) this = negb (Z.gtb r (kind_rank k))).
  { unfold order_ok. rewrite Hlast, Hrank, order_kind. reflexivity. }
  assert (Hlow : kind_rank k < r -> append k v this = (Throw OrderViolation, this)).
  { intros Hlt. rewrite append_eq, Hok.
    replace (r >? kind_rank k) with true by (symmetry; apply Z.gtb_lt; lia).
    reflexivity. }
  assert (Hhigh : r <= kind_rank k -> (r >? kind_rank k) = false).
  { intros Hle. rewrite Z.gtb_ltb. apply Z.ltb_ge. exact Hle. }
  split; [exact Hlow | split; [|split]].
  - intros Hle. rewrite checkOrder_eq, Hok, (Hhigh Hle). reflexivity.
  - intros Hle. rewrite append_eq, Hok, (Hhigh Hle). reflexivity.
  - intros Hlt _. unfold completion. rewrite (Hlow Hlt). reflexivity.
Qed.

Lemma order_check_on_last_fragment_witness :
  append Id "main" div_box = (Throw OrderViolation, div_box) /\
  checkOrder (kind_type Attr) div_box = (Normal tt, div_box) /\
  append Attr "href" div_box =
    (Normal (pushed div_box (fragment (Attr, "href"))),
     pushed div_box (fragment (Attr, "href"))) /\
  append Class "wide" div_box =
    (Normal (pushed div_box (fragment (Class, "wide"))),
     pushed div_box (fragment (Class, "wide"))).
Proof.
  split; [|split; [|split]].
  - apply (order_check_on_last_fragment div_box (fragment (Class, "box")) 2 Id "main");
      [reflexivity | reflexivity | reflexivity].
  - apply (order_check_on_last_fragment div_box (fragment (Class, "box")) 2 Attr "href");
      [reflexivity | reflexivity | discriminate].
  - destruct (order_check_on_last_fragment div_box (fragment (Class, "box")) 2 Attr "href"
                eq_refl eq_refl) as (_ & _ & Happend & _).
    rewrite Happend; [reflexivity | discriminate].
  - destruct (order_check_on_last_fragment div_box (fragment (Class, "box")) 2 Class "wide"
                eq_refl eq_refl) as (_ & _ & Happend & _).
    rewrite Happend; [reflexivity | discriminate].
Defined.

(** C8.  After a successful [combine] the last fragment has no [type], so
    the table has no rank for it: [checkOrder] accepts every kind, and a
    fragment-appending call of any kind on that builder passes the order
    check.  The call is decided by the cardinality check alone: it pushes
    the fragment unless the kind is limited and already present, and it
    never throws the order error. *)
Theorem order_check_after_combine {A B} `{Stringifiable A} `{Stringifiable B}
    (selector1 : A) (combinator : string) (selector2 : B)
    (this r this' : CssSelectorBuilder) (k : Kind) (v : string) :
  combine selector1 combinator selector2 this = (Normal r, this') ->
  (exists prevSelector,
      last (selectors this') = Some prevSelector /\ type prevSelector = None) /\
  checkOrder (kind_type k) this' = (Normal tt, this') /\
  append k v this' =
    (if limited k && bool_decide (0 < occurrences (kind_type k) this')%nat
     then (Throw DuplicateSelector, this')
     else (Normal (pushed this' (fragment (k, v))), pushed this' (fragment (k, v)))) /\
  completion (append k v) this' <> Throw OrderViolation.
Proof.
  rewrite combine_eq.
  destruct (call_stringify selector1) as [s1|]; [|discriminate].
  destruct (call_stringify selector2) as [s2|]; [|discriminate].
  intros [= _ <-].
  assert (Hlast : last (selectors (pushed this (combined s1 combinator s2)))
                  = Some (combined s1 combinator s2)) by apply last_snoc.
  assert (Hok : order_ok (kind_type k) (pushed this (combined s1 combinator s2)) = true).
  { unfold order_ok. rewrite Hlast. simpl. rewrite order_undefined. reflexivity. }
  assert (Happend :
    append k v (pushed this (combined s1 combinator s2)) =
      (if limited k
          && bool_decide (0 < occurrences (kind_type k)
                                 (pushed this (combined s1 combinator s2)))%nat
       then (Throw DuplicateSelector, pushed this (combined s1 combinator s2))
       else (Normal (pushed (pushed this (combined s1 combinator s2)) (fragment (k, v))),
             pushed (pushed this (combined s1 combinator s2)) (fragment (k, v))))).
  { rewrite append_eq, Hok. reflexivity. }
  split; [eexists; split; [exact Hlast | reflexivity]|].
  split; [rewrite checkOrder_eq, Hok; reflexivity|].
  split; [exact Happend|].
  unfold completion. rewrite Happend.
  destruct (limited k && _); simpl; [|discriminate].
  intros Heq. vm_compute in Heq. discriminate Heq.
Qed.

Lemma order_check_after_combine_witness :
  checkOrder (kind_type Element)
    (pushed div_box (combined "div#main" "+" "table#data"))
  = (Normal tt, pushed div_box (combined "div#main" "+" "table#data")) /\
  append Id "top" (pushed div_box (combined "div#main" "+" "table#data"))
  = (Normal (pushed (pushed div_box (combined "div#main" "+" "table#data"))
               (fragment (Id, "top"))),
     pushed (pushed div_box (combined "div#main" "+" "table#data"))
       (fragment (Id, "top"))) /\
  append Element "p" (pushed div_box (combined "div#main" "+" "table#data"))
  = (Throw DuplicateSelector, pushed div_box (combined "div#main" "+" "table#data")).
Proof.
  assert (Hcombine :
    combine div_main "+" table_data div_box =
      (Normal (pushed div_box (combined "div#main" "+" "table#data")),
       pushed div_box (combined "div#main" "+" "table#data"))) by reflexivity.
  split; [|split].
  - apply (order_check_after_combine div_main "+" table_data div_box
             (pushed div_box (combined "div#main" "+" "table#data"))
             (pushed div_box (combined "div#main" "+" "table#data")) Element "p").
    exact Hcombine.
  - destruct (order_check_after_combine div_main "+" table_data div_box
                (pushed div_box (combined "div#main" "+" "table#data"))
                (pushed div_box (combined "div#main" "+" "table#data")) Id "top"
                Hcombine) as (_ & _ & Happend & _).
    rewrite Happend. reflexivity.
  - destruct (order_check_after_combine div_main "+" table_data div_box
                (pushed div_box (combined "div#main" "+" "table#data"))
                (pushed div_box (combined "div#main" "+" "table#data")) Element "p"
                Hcombine) as (_ & _ & Happend & _).
    rewrite Happend. reflexivity.
Defined.

(** ** The cardinality check *)

(** C2, as stated, fails: after [element('a').id('b')] a second [element]
    is rejected by the order check, which runs first. *)
Lemma duplicate_not_always_reported : ~ duplicate_always_reported.
Proof.
  intros Hclaim.
  specialize (Hclaim a_b Element "c" eq_refl).
  assert (Hocc : (0 < occurrences (kind_type Element) a_b)%nat) by (vm_compute; lia).
  specialize (Hclaim Hocc).
  vm_compute in Hclaim. discriminate Hclaim.
Qed.

(** C2, amended.  When the builder holds a fragment of a limited kind,
    appending that kind again always throws and leaves the builder as it
    was: the duplicate error when the order check accepts the kind, the
    order error when it does not. *)
Theorem second_limited_fragment_rejected
    (this : CssSelectorBuilder) (k : Kind) (v : string) :
  limited k = true ->
  (0 < occurrences (kind_type k) this)%nat ->
  append k v this =
    (Throw (if order_ok (kind_type k) this then DuplicateSelector else OrderViolation),
     this) /\
  completion (checkOrder (kind_type k)) this =
    (if order_ok (kind_type k) this then Normal tt else Throw OrderViolation).
Proof.
  intros Hlim Hocc. split.
  - rewrite append_eq, Hlim. destruct (order_ok _ this); [|reflexivity].
    rewrite bool_decide_eq_true_2 by exact Hocc. reflexivity.
  - unfold completion. rewrite checkOrder_eq. reflexivity.
Qed.

Lemma second_limited_fragment_rejected_witness :
  append Id "c" a_b = (Throw DuplicateSelector, a_b) /\
  append Element "c" a_b = (Throw OrderViolation, a_b).
Proof.
  split.
  - apply (second_limited_fragment_rejected a_b Id "c"); [reflexivity | vm_compute; lia].
  - apply (second_limited_fragment_rejected a_b Element "c"); [reflexivity | vm_compute; lia].
Defined.

(** ** Failure leaves the builder unchanged *)

(** C6.  A fragment-appending call that throws leaves the builder, hence
    [this.selectors], as it was, and the exception is one of the two errors of the builder. *)
Theorem failed_append_keeps_builder
    (this this' : CssSelectorBuilder) (k : Kind) (v : string) (e : Exception) :
  append k v this = (Throw e, this') ->
  this' = this /\ (e = OrderViolation \/ e = DuplicateSelector).
Proof.
  rewrite append_eq.
  destruct (order_ok _ this).
  - destruct (limited k && _).
    + intros [= <- <-]. split; [reflexivity | right; reflexivity].
    + discriminate.
  - intros [= <- <-]. split; [reflexivity | left; reflexivity].
Qed.

Lemma failed_append_keeps_builder_witness :
  a_b = a_b /\
  (OrderViolation = OrderViolation \/ OrderViolation = DuplicateSelector).
Proof.
  apply (failed_append_keeps_builder a_b a_b Element "c" OrderViolation).
  reflexivity.
Defined.

(** ** [stringify] *)

(** C10.  Two calls of [stringify] in a row return the same string, and
    [stringify] leaves the builder as it was. *)
Theorem stringify_twice (this : CssSelectorBuilder) :
  exists s,
    stringify this = (Normal s, this) /\
    (s1 ← stringify; s2 ← stringify; ret (s1, s2)) this = (Normal (s, s), this).
Proof.
  exists (String.concat "" (value <$> selectors this)).
  split; reflexivity.
Qed.

(** ** [combine] *)

(** C4.  Whatever the builder holds and whatever the combinator is,
    [combine] pushes one fragment without [type] whose text is the two
    rendered selectors around the combinator, and returns the builder.  The
    builder the facade returns renders to that text and can be an argument
    of [combine] in turn. *)
Theorem combine_appends_one_fragment {A B} `{Stringifiable A} `{Stringifiable B}
    (selector1 : A) (combinator : string) (selector2 : B)
    (this : CssSelectorBuilder) (s1 s2 : string) :
  call_stringify selector1 = Normal s1 ->
  call_stringify selector2 = Normal s2 ->
  let text := s1 +:+ " " +:+ combinator +:+ " " +:+ s2 in
  let this' := {| selectors := selectors this ++ [{| type := None; value := text |}] |} in
  let built := {| selectors := [{| type := None; value := text |}] |} in
  combine selector1 combinator selector2 this = (Normal this', this') /\
  cssSelectorBuilder.combine selector1 combinator selector2 = Normal built /\
  completion stringify built = Normal text /\
  forall (D : Type) (HD : Stringifiable D)
         (combinator' : string) (selector3 : D) (s3 : string),
    call_stringify selector3 = Normal s3 ->
    cssSelectorBuilder.combine built combinator' selector3 =
      Normal {| selectors :=
                 [{| type := None;
                     value := text +:+ " " +:+ combinator' +:+ " " +:+ s3 |}] |}.
Proof.
  intros H1 H2 text this' built.
  split; [|split; [|split]].
  - rewrite combine_eq, H1, H2. reflexivity.
  - unfold cssSelectorBuilder.combine, completion.
    rewrite combine_eq, H1, H2. reflexivity.
  - reflexivity.
  - intros D HD combinator' selector3 s3 H3.
    unfold cssSelectorBuilder.combine, completion.
    rewrite combine_eq, H3. reflexivity.
Qed.

Lemma combine_appends_one_fragment_witness :
  cssSelectorBuilder.combine div_main "+" table_data
  = Normal {| selectors := [{| type := None; value := "div#main + table#data" |}] |}.
Proof.
  apply (combine_appends_one_fragment div_main "+" table_data constructor
           "div#main" "table#data" eq_refl eq_refl).
Defined.

(** ** Chains in rank order *)

Section Chains.

Implicit Types (this : CssSelectorBuilder) (k : Kind) (v : string)
  (calls : list (Kind * string)).

Lemma ranks_nondecreasing_tail k v calls :
  ranks_nondecreasing ((k, v) :: calls) = true -> ranks_nondecreasing calls = true.
Proof.
  destruct calls as [|[k' v'] rest]; [reflexivity|].
  simpl. intros H. apply andb_prop in H. exact (proj2 H).
Qed.

Lemma ranks_nondecreasing_head k v k' v' calls :
  ranks_nondecreasing ((k, v) :: (k', v') :: calls) = true ->
  kind_rank k <= kind_rank k'.
Proof.
  simpl. intros H. apply andb_prop in H. apply Z.leb_le. exact (proj1 H).
Qed.

Lemma calls_of_kind_cons k k' v calls :
  calls_of_kind k ((k', v) :: calls) =
    ((if decide (k' = k) then 1 else 0) + calls_of_kind k calls)%nat.
Proof.
  unfold calls_of_kind. rewrite filter_cons. simpl.
  case_decide; reflexivity.
Qed.

Lemma respects_cardinality_limited calls k :
  respects_cardinality calls = true ->
  limited k = true -> (calls_of_kind k calls <= 1)%nat.
Proof.
  unfold respects_cardinality. rewrite forallb_forall.
  intros Hall Hlim.
  assert (Hin : In k [Element; Id; Class; Attr; PseudoClass; PseudoElement])
    by (destruct k; simpl; tauto).
  specialize (Hall k Hin). rewrite Hlim in Hall. simpl in Hall.
  apply Nat.leb_le. exact Hall.
Qed.

(** The builder a chain leaves when every call goes through. *)
Lemma chain_in_order calls : forall this,
  ranks_nondecreasing calls = true ->
  (forall k v rest, calls = (k, v) :: rest -> order_ok (kind_type k) this = true) ->
  (forall k, limited k = true ->
             (occurrences (kind_type k) this + calls_of_kind k calls <= 1)%nat) ->
  chain calls this =
    (Normal tt, {| selectors := selectors this ++ (fragment <$> calls) |}).
Proof.
  induction calls as [|[k v] rest IH]; intros this Hsorted Hhead Hcard.
  - simpl. rewrite app_nil_r. destruct this; reflexivity.
  - simpl chain. unfold mbind, method_bind, Js.bind.
    rewrite append_eq, (Hhead k v rest eq_refl).
    assert (Hfresh : limited k && bool_decide (0 < occurrences (kind_type k) this)%nat
                     = false).
    { destruct (limited k) eqn:Hlim; [|reflexivity].
      specialize (Hcard k Hlim). rewrite calls_of_kind_cons in Hcard.
      rewrite decide_True in Hcard by reflexivity.
      simpl. apply bool_decide_eq_false_2. lia. }
    rewrite Hfresh.
    rewrite IH.
    + unfold pushed. simpl. rewrite <- app_assoc. reflexivity.
    + eapply ranks_nondecreasing_tail. exact Hsorted.
    + intros k' v' rest' ->. unfold order_ok, pushed. simpl.
      rewrite last_snoc. simpl.
      rewrite !order_kind. simpl.
      apply negb_true_iff. rewrite Z.gtb_ltb. apply Z.ltb_ge.
      eapply ranks_nondecreasing_head. exact Hsorted.
    + intros k' Hlim. specialize (Hcard k' Hlim).
      rewrite calls_of_kind_cons in Hcard.
      rewrite occurrences_pushed. simpl.
      destruct (decide (k = k')) as [->|Hne].
      * rewrite decide_True by reflexivity. lia.
      * rewrite decide_False; [lia|].
        intros [= Heq]. apply Hne. apply kind_type_inj. exact Heq.
Qed.

(** When a chain completes, each of its calls returned normally. *)
Lemma chain_calls_normal done k v rest : forall this,
  completion (chain (done ++ (k, v) :: rest)) this = Normal tt ->
  is_normal (completion (append k v) (after (chain done) this)) = true.
Proof.
  unfold completion, after.
  induction done as [|[k' v'] done IH]; intros this; simpl;
    unfold mbind, method_bind, Js.bind.
  - destruct (append k v this) as [[r|e] this']; [reflexivity | discriminate].
  - destruct (append k' v' this) as [[r|e] this']; [apply IH | discriminate].
Qed.

End Chains.

(** C1.  A chain whose kinds are in non-decreasing rank order and which
    calls [element], [id] and [pseudoElement] at most once each, run on a
    fresh builder: every call returns normally, and [stringify] then returns
    the documented forms of the calls joined in call order.  The same holds
    when the first call is made through the facade and the others on the
    builder it returns. *)
Theorem chain_in_rank_order_renders (calls : list (Kind * string)) :
  ranks_nondecreasing calls = true ->
  respects_cardinality calls = true ->
  (forall (done : list (Kind * string)) k v rest,
      calls = (done ++ (k, v) :: rest)%list ->
      is_normal (completion (append k v) (after (chain done) constructor)) = true) /\
  completion (chain calls;; stringify) constructor =
    Normal (String.concat "" (documented_form <$> calls)) /\
  (forall k v rest,
      calls = (k, v) :: rest ->
      dot (facade k v) (chain rest;; stringify) =
        Normal (String.concat "" (documented_form <$> calls))).
Proof.
  intros Hsorted Hcard.
  assert (Hchain : chain calls constructor = (Normal tt, {| selectors := fragment <$> calls |})).
  { rewrite chain_in_order; [reflexivity | exact Hsorted | reflexivity |].
    intros k Hlim. simpl. eapply respects_cardinality_limited; eassumption. }
  assert (Hrender :
            completion (chain calls;; stringify) constructor =
              Normal (String.concat "" (documented_form <$> calls))).
  { unfold completion, mbind, method_bind, Js.bind. rewrite Hchain.
    rewrite stringify_eq. simpl. f_equal. f_equal.
    rewrite <- list_fmap_compose. reflexivity. }
  split; [|split].
  - intros done k v rest ->. apply (chain_calls_normal done k v rest).
    unfold completion. rewrite Hchain. reflexivity.
  - exact Hrender.
  - intros k v rest ->. rewrite <- Hrender. rewrite facade_eq.
    unfold dot, completion. simpl chain.
    unfold mbind, method_bind, Js.bind.
    destruct (append k v constructor) as [[r|e] this'] eqn:E; simpl.
    + apply append_returns_this in E. subst r. reflexivity.
    + reflexivity.
Qed.

Lemma chain_in_rank_order_renders_witness :
  completion
    (chain [(Element, "a"); (Id, "main"); (Class, "container"); (Class, "editable");
            (Attr, "href"); (PseudoClass, "focus"); (PseudoElement, "after")];;
     stringify) constructor
  = Normal "a#main.container.editable[href]:focus::after".
Proof.
  apply (chain_in_rank_order_renders
           [(Element, "a"); (Id, "main"); (Class, "container"); (Class, "editable");
            (Attr, "href"); (PseudoClass, "focus"); (PseudoElement, "after")]);
    reflexivity.
Defined.

(** ** The cardinality invariant *)

Section Invariant.

Implicit Types (this : CssSelectorBuilder) (k : Kind) (v : string).

Lemma at_most_once_constructor : at_most_once constructor.
Proof. intros k _. unfold occurrences. simpl. lia. Qed.

Lemma at_most_once_append k v this r this' :
  at_most_once this -> append k v this = (Normal r, this') -> at_most_once this'.
Proof.
  intros Hinv. rewrite append_eq.
  destruct (order_ok _ this); [|discriminate].
  destruct (limited k && _) eqn:Hdup; [discriminate|].
  intros [= _ <-] k' Hlim.
  rewrite occurrences_pushed. simpl.
  destruct (decide (k = k')) as [<-|Hne].
  - rewrite decide_True by reflexivity.
    rewrite Hlim in Hdup. simpl in Hdup.
    apply bool_decide_eq_false_1 in Hdup. lia.
  - rewrite decide_False.
    + specialize (Hinv k' Hlim). lia.
    + intros [= Heq]. apply Hne. apply kind_type_inj. exact Heq.
Qed.

Lemma at_most_once_combine {A B} `{Stringifiable A} `{Stringifiable B}
    (selector1 : A) (combinator : string) (selector2 : B) this r this' :
  at_most_once this ->
  combine selector1 combinator selector2 this = (Normal r, this') ->
  at_most_once this'.
Proof.
  intros Hinv. rewrite combine_eq.
  destruct (call_stringify selector1) as [s1|]; [|discriminate].
  destruct (call_stringify selector2) as [s2|]; [|discriminate].
  intros [= _ <-] k Hlim.
  rewrite occurrences_pushed. specialize (Hinv k Hlim).
  destruct (decide (type (combined s1 combinator s2) = Some (kind_type k)))
    as [Heq|_]; [discriminate Heq | lia].
Qed.

Lemma reachable_at_most_once this : reachable this -> at_most_once this.
Proof.
  induction 1 as [k v this Hcall
                 |A B HA HB selector1 combinator selector2 this Hcall
                 |k v this r this' _ IH Hcall
                 |A B HA HB selector1 combinator selector2 this r this' _ IH Hcall].
  - rewrite facade_eq in Hcall. unfold completion in Hcall.
    destruct (append k v constructor) as [c after'] eqn:E.
    simpl in Hcall. subst c.
    pose proof (append_returns_this _ _ _ _ _ E) as ->.
    eapply at_most_once_append; [apply at_most_once_constructor | exact E].
  - unfold cssSelectorBuilder.combine, completion in Hcall.
    destruct (combine selector1 combinator selector2 constructor) as [c after'] eqn:E.
    simpl in Hcall. subst c.
    assert (after' = this) as ->.
    { rewrite combine_eq in E.
      destruct (call_stringify selector1); [|discriminate].
      destruct (call_stringify selector2); [|discriminate].
      congruence. }
    exact (at_most_once_combine selector1 combinator selector2 _ _ _
             at_most_once_constructor E).
  - eapply at_most_once_append; eassumption.
  - exact (at_most_once_combine selector1 combinator selector2 _ _ _ IH Hcall).
Qed.

End Invariant.

(** C5.  In a builder reached through the facade and successful method
    calls, fragments of type [element], [id] and [pseudoElement] occur at
    most once each. *)
Theorem limited_kinds_at_most_once (this : CssSelectorBuilder) :
  reachable this ->
  (occurrences "element" this <= 1)%nat /\
  (occurrences "id" this <= 1)%nat /\
  (occurrences "pseudoElement" this <= 1)%nat.
Proof.
  intros Hreach. pose proof (reachable_at_most_once this Hreach) as Hinv.
  repeat split.
  - exact (Hinv Element eq_refl).
  - exact (Hinv Id eq_refl).
  - exact (Hinv PseudoElement eq_refl).
Qed.

Lemma limited_kinds_at_most_once_witness :
  (occurrences "element" (pushed div_main (combined "a" ">" "b")) <= 1)%nat /\
  (occurrences "id" (pushed div_main (combined "a" ">" "b")) <= 1)%nat /\
  (occurrences "pseudoElement" (pushed div_main (combined "a" ">" "b")) <= 1)%nat.
Proof.
  apply limited_kinds_at_most_once.
  apply (reachable_combine
           {| selectors := [fragment (Element, "a")] |} ">"
           {| selectors := [fragment (Element, "b")] |}
           div_main (pushed div_main (combined "a" ">" "b"))
           (pushed div_main (combined "a" ">" "b"))); [|reflexivity].
  apply (reachable_append Id "main" {| selectors := [fragment (Element, "div")] |}
           div_main div_main); [|reflexivity].
  apply (reachable_facade_append Element "div"). reflexivity.
Defined.

(** ** Serialising and reading back a rectangle *)

Section RoundTrip.

Lemma getJSON_height10_width20 : getJSON height10_width20 = Some height10_width20_text.
Proof. vm_compute. reflexivity. Qed.

Lemma JSON_parse_height10_width20 :
  JSON_parse height10_width20_text = Some (Normal height10_width20).
Proof. vm_compute. reflexivity. Qed.

Lemma JSON_parse_null : JSON_parse "null" = Some (Normal JNull).
Proof. vm_compute. reflexivity. Qed.

End RoundTrip.

(** C7.  [fromJSON(Rectangle.prototype, getJSON({ height: 10, width: 20 }))]
    is an object whose [height] is 10 and whose [width] is 20, with
    [Rectangle.prototype] as prototype, so that [getArea()] is found there
    and returns 200. *)
Theorem rectangle_round_trip :
  exists (text : string) (obj : Object),
    getJSON height10_width20 = Some text /\
    fromJSON (ProtoObject Rectangle_prototype) text = Some (Normal obj) /\
    Get obj "height" = Some (JNumber 10) /\
    Get obj "width" = Some (JNumber 20) /\
    prototype obj = Some Rectangle_prototype /\
    own_property (own obj) "getArea" = None /\
    call_method obj "getArea" = Some (Normal (JNumber 200)).
Proof.
  exists height10_width20_text.
  exists {| prototype := Some Rectangle_prototype;
            own := [("height", data_property (JNumber 10));
                    ("width", data_property (JNumber 20))] |}.
  split; [exact getJSON_height10_width20|].
  split.
  { unfold fromJSON. rewrite JSON_parse_height10_width20. reflexivity. }
  repeat split; vm_compute; reflexivity.
Qed.

(** C9.  ["null"] is well-formed, it parses to [null], and [fromJSON] throws
    on it whatever the prototype: [Object.getOwnPropertyDescriptors(null)]
    raises a [TypeError]. *)
Theorem fromJSON_null_throws (proto : ProtoValue) :
  JSON_parse "null" = Some (Normal JNull) /\
  fromJSON proto "null" = Some (Throw TypeError).
Proof.
  split; [exact JSON_parse_null|].
  unfold fromJSON. rewrite JSON_parse_null. reflexivity.
Qed.

(** * Further properties of the builder *)

Section Rendering.

Implicit Types (this : CssSelectorBuilder) (k : Kind) (v : string).

Lemma append_empty_r (s : string) : s +:+ "" = s.
Proof.
  induction s as [|c s IH]; [reflexivity|].
  change (String c (s +:+ "") = String c s). f_equal. exact IH.
Qed.

Lemma append_assoc (s1 s2 s3 : string) : (s1 +:+ s2) +:+ s3 = s1 +:+ (s2 +:+ s3).
Proof.
  induction s1 as [|c s1 IH]; [reflexivity|].
  change (String c ((s1 +:+ s2) +:+ s3) = String c (s1 +:+ (s2 +:+ s3))).
  f_equal. exact IH.
Qed.

Lemma join_cons (x : string) (l : list string) :
  String.concat "" (x :: l) = x +:+ String.concat "" l.
Proof.
  destruct l as [|y l]; [|reflexivity].
  change (x = x +:+ ""). symmetry. apply append_empty_r.
Qed.

Lemma join_app (l1 l2 : list string) :
  String.concat "" (l1 ++ l2) = String.concat "" l1 +:+ String.concat "" l2.
Proof.
  induction l1 as [|x l1 IH]; [reflexivity|].
  rewrite <- app_comm_cons, !join_cons, IH, append_assoc. reflexivity.
Qed.

Lemma stringify_pushed this selector :
  completion stringify (pushed this selector) =
    Normal (String.concat "" (value <$> selectors this) +:+ value selector).
Proof.
  unfold completion. rewrite stringify_eq. simpl.
  rewrite fmap_app, join_app. reflexivity.
Qed.

Lemma append_normal k v this r this' :
  append k v this = (Normal r, this') ->
  order_ok (kind_type k) this = true /\
  limited k && bool_decide (0 < occurrences (kind_type k) this)%nat = false /\
  r = this' /\ this' = pushed this (fragment (k, v)).
Proof.
  rewrite append_eq.
  destruct (order_ok _ this); [|discriminate].
  destruct (limited k && _); [discriminate|].
  intros [= <- <-]. repeat split.
Qed.

End Rendering.

(** X1.  On a fresh builder every fragment-appending method succeeds, so a
    facade entry point for a fragment never throws: it returns a builder
    that holds the one fragment and renders to its documented form. *)
Theorem facade_never_throws (k : Kind) (v : string) :
  facade k v = Normal {| selectors := [fragment (k, v)] |} /\
  dot (facade k v) stringify = Normal (documented_form (k, v)).
Proof.
  assert (H : facade k v = Normal {| selectors := [fragment (k, v)] |}).
  { rewrite facade_eq. unfold completion. rewrite append_eq.
    replace (order_ok (kind_type k) constructor) with true by reflexivity.
    replace (bool_decide (0 < occurrences (kind_type k) constructor)%nat) with false
      by reflexivity.
    rewrite andb_false_r. reflexivity. }
  split; [exact H|]. rewrite H. reflexivity.
Qed.

(** X2.  [class], [attr] and [pseudoClass] are repeatable: whatever the
    builder already holds, such a call succeeds as soon as [checkOrder]
    accepts it, and when it throws the exception is the order error. *)
Theorem repeatable_kinds_only_fail_on_order
    (this : CssSelectorBuilder) (k : Kind) (v : string) :
  limited k = false ->
  (completion (checkOrder (kind_type k)) this = Normal tt ->
   append k v this =
     (Normal (pushed this (fragment (k, v))), pushed this (fragment (k, v)))) /\
  (forall e this', append k v this = (Throw e, this') -> e = OrderViolation).
Proof.
  intros Hlim. rewrite append_eq, Hlim. simpl. split.
  - unfold completion. rewrite checkOrder_eq. simpl.
    destruct (order_ok _ this); [reflexivity | discriminate].
  - intros e this'. destruct (order_ok _ this); [discriminate|]. congruence.
Qed.

Lemma repeatable_kinds_only_fail_on_order_witness :
  append Class "wide" div_box =
    (Normal (pushed div_box (fragment (Class, "wide"))),
     pushed div_box (fragment (Class, "wide"))).
Proof.
  apply (repeatable_kinds_only_fail_on_order div_box Class "wide"); reflexivity.
Defined.

(** X3.  A successful fragment-appending call adds one fragment, and the
    text [stringify] returns afterwards is the text it returned before
    followed by the documented form of the call. *)
Theorem append_extends_rendering
    (this r this' : CssSelectorBuilder) (k : Kind) (v : string) :
  append k v this = (Normal r, this') ->
  length (selectors this') = S (length (selectors this)) /\
  completion stringify this' =
    Normal (String.concat "" (value <$> selectors this) +:+ documented_form (k, v)).
Proof.
  intros H. apply append_normal in H as (_ & _ & _ & ->). split.
  - unfold pushed. simpl. rewrite length_app. simpl. lia.
  - apply stringify_pushed.
Qed.

Lemma append_extends_rendering_witness :
  length (selectors (pushed div_box (fragment (Attr, "href")))) = S (length (selectors div_box)) /\
  completion stringify (pushed div_box (fragment (Attr, "href"))) =
    Normal (String.concat "" (value <$> selectors div_box) +:+ documented_form (Attr, "href")).
Proof.
  apply (append_extends_rendering div_box (pushed div_box (fragment (Attr, "href")))
           (pushed div_box (fragment (Attr, "href"))) Attr "href").
  reflexivity.
Defined.

(** X4.  A successful [combine] on a builder that already holds fragments
    adds its text after theirs: [stringify] returns the text it returned
    before followed by the two rendered arguments around the combinator. *)
Theorem combine_extends_rendering {A B} `{Stringifiable A} `{Stringifiable B}
    (selector1 : A) (combinator : string) (selector2 : B)
    (this r this' : CssSelectorBuilder) (s1 s2 : string) :
  call_stringify selector1 = Normal s1 ->
  call_stringify selector2 = Normal s2 ->
  combine selector1 combinator selector2 this = (Normal r, this') ->
  length (selectors this') = S (length (selectors this)) /\
  completion stringify this' =
    Normal (String.concat "" (value <$> selectors this)
            +:+ (s1 +:+ " " +:+ combinator +:+ " " +:+ s2)).
Proof.
  intros H1 H2. rewrite combine_eq, H1, H2. intros [= _ <-]. split.
  - unfold pushed. simpl. rewrite length_app. simpl. lia.
  - apply stringify_pushed.
Qed.

Lemma combine_extends_rendering_witness :
  length (selectors (pushed div_box (combined "div#main" ">" "table#data")))
  = S (length (selectors div_box)) /\
  completion stringify (pushed div_box (combined "div#main" ">" "table#data")) =
    Normal (String.concat "" (value <$> selectors div_box)
            +:+ ("div#main" +:+ " " +:+ ">" +:+ " " +:+ "table#data")).
Proof.
  apply (combine_extends_rendering div_main ">" table_data div_box
           (pushed div_box (combined "div#main" ">" "table#data"))
           (pushed div_box (combined "div#main" ">" "table#data"))
           "div#main" "table#data"); reflexivity.
Defined.

(** X5.  [combine] evaluates both [stringify] calls before it pushes: when
    one of them throws, [combine] throws the same exception and the builder
    keeps the fragments it had. *)
Theorem combine_with_throwing_argument {A B} `{Stringifiable A} `{Stringifiable B}
    (selector1 : A) (combinator : string) (selector2 : B)
    (this : CssSelectorBuilder) (e : Exception) :
  call_stringify selector1 = Throw e \/
  (is_normal (call_stringify selector1) = true /\ call_stringify selector2 = Throw e) ->
  combine selector1 combinator selector2 this = (Throw e, this).
Proof.
  rewrite combine_eq. intros [H1|[H1 H2]].
  - rewrite H1. reflexivity.
  - destruct (call_stringify selector1); [|discriminate H1].
    rewrite H2. reflexivity.
Qed.

Lemma combine_with_throwing_argument_witness :
  combine div_main "+" no_stringify div_box = (Throw TypeError, div_box).
Proof.
  apply (combine_with_throwing_argument div_main "+" no_stringify div_box TypeError).
  right. split; reflexivity.
Defined.

(** ** Order of the fragments *)

Section RankOrder.

Implicit Types (this : CssSelectorBuilder) (k : Kind) (v : string).

Lemma ranks_in_order_snoc (l : list Selector) (selector : Selector) :
  ranks_in_order (l ++ [selector])%list =
    ranks_in_order l
    && match last l with
       | Some prevSelector =>
           negb (js_gt (order_get (type prevSelector)) (order_get (type selector)))
       | None => true
       end.
Proof.
  induction l as [|a l IH]; [reflexivity|].
  destruct l as [|b l].
  - simpl. rewrite andb_true_r. reflexivity.
  - change ((a :: b :: l) ++ [selector])%list with (a :: (b :: l) ++ [selector])%list.
    change (ranks_in_order (a :: (b :: l) ++ [selector])%list)
      with (negb (js_gt (order_get (type a)) (order_get (type b)))
            && ranks_in_order ((b :: l) ++ [selector])%list).
    rewrite IH.
    change (ranks_in_order (a :: b :: l))
      with (negb (js_gt (order_get (type a)) (order_get (type b)))
            && ranks_in_order (b :: l)).
    change (last (a :: b :: l)) with (last (b :: l)).
    rewrite andb_assoc. reflexivity.
Qed.

Lemma ranks_in_order_append k v this r this' :
  ranks_in_order (selectors this) = true ->
  append k v this = (Normal r, this') ->
  ranks_in_order (selectors this') = true.
Proof.
  intros Hinv H. apply append_normal in H as (Hok & _ & _ & ->).
  unfold pushed. simpl. rewrite ranks_in_order_snoc, Hinv. simpl.
  unfold order_ok in Hok. exact Hok.
Qed.

Lemma js_gt_undefined (a : option Z) : js_gt a None = false.
Proof. destruct a; reflexivity. Qed.

Lemma ranks_in_order_combine {A B} `{Stringifiable A} `{Stringifiable B}
    (selector1 : A) (combinator : string) (selector2 : B) this r this' :
  ranks_in_order (selectors this) = true ->
  combine selector1 combinator selector2 this = (Normal r, this') ->
  ranks_in_order (selectors this') = true.
Proof.
  intros Hinv. rewrite combine_eq.
  destruct (call_stringify selector1) as [s1|]; [|discriminate].
  destruct (call_stringify selector2) as [s2|]; [|discriminate].
  intros [= _ <-]. unfold pushed. simpl.
  rewrite ranks_in_order_snoc, Hinv. simpl.
  destruct (last (selectors this)); [|reflexivity].
  rewrite order_undefined, js_gt_undefined. reflexivity.
Qed.

Lemma facade_combine_state {A B} `{Stringifiable A} `{Stringifiable B}
    (selector1 : A) (combinator : string) (selector2 : B) this :
  cssSelectorBuilder.combine selector1 combinator selector2 = Normal this ->
  combine selector1 combinator selector2 constructor = (Normal this, this).
Proof.
  unfold cssSelectorBuilder.combine, completion. rewrite combine_eq.
  destruct (call_stringify selector1); [|discriminate].
  destruct (call_stringify selector2); [|discriminate].
  simpl. congruence.
Qed.

Lemma facade_append_state k v this :
  facade k v = Normal this -> append k v constructor = (Normal this, this).
Proof.
  rewrite facade_eq. unfold completion.
  destruct (append k v constructor) as [c after'] eqn:E. simpl. intros ->.
  pose proof (append_returns_this _ _ _ _ _ E) as ->. reflexivity.
Qed.

Lemma well_typed_reachable this :
  reachable this -> Forall well_typed (selectors this) /\ selectors this <> [].
Proof.
  assert (Hstep_append : forall k v this0 r this1,
             Forall well_typed (selectors this0) ->
             append k v this0 = (Normal r, this1) ->
             Forall well_typed (selectors this1) /\ selectors this1 <> []).
  { intros k v this0 r this1 Hwt H. apply append_normal in H as (_ & _ & _ & ->).
    unfold pushed. simpl. split.
    - apply Forall_app. split; [exact Hwt|].
      constructor; [right; exists k; reflexivity | constructor].
    - intros Hnil. apply app_eq_nil in Hnil as [_ Hnil]. discriminate Hnil. }
  assert (Hstep_combine : forall A B (HA : Stringifiable A) (HB : Stringifiable B)
             (selector1 : A) combinator (selector2 : B) this0 r this1,
             Forall well_typed (selectors this0) ->
             combine selector1 combinator selector2 this0 = (Normal r, this1) ->
             Forall well_typed (selectors this1) /\ selectors this1 <> []).
  { intros A B HA HB selector1 combinator selector2 this0 r this1 Hwt.
    rewrite combine_eq.
    destruct (call_stringify selector1); [|discriminate].
    destruct (call_stringify selector2); [|discriminate].
    intros [= _ <-]. unfold pushed. simpl. split.
    - apply Forall_app. split; [exact Hwt|].
      constructor; [left; reflexivity | constructor].
    - intros Hnil. apply app_eq_nil in Hnil as [_ Hnil]. discriminate Hnil. }
  induction 1 as [k v this Hcall
                 |A B HA HB selector1 combinator selector2 this Hcall
                 |k v this r this' _ IH Hcall
                 |A B HA HB selector1 combinator selector2 this r this' _ IH Hcall].
  - apply facade_append_state in Hcall.
    exact (Hstep_append _ _ constructor _ _ (Forall_nil_2 _) Hcall).
  - apply facade_combine_state in Hcall.
    exact (Hstep_combine _ _ _ _ _ _ _ constructor _ _ (Forall_nil_2 _) Hcall).
  - exact (Hstep_append _ _ _ _ _ (proj1 IH) Hcall).
  - exact (Hstep_combine _ _ _ _ _ _ _ _ _ _ (proj1 IH) Hcall).
Qed.

Lemma rank_zero_is_element k : kind_rank k <= 0 -> k = Element.
Proof. destruct k; simpl; intros H; first [reflexivity | lia]. Qed.

Lemma rank_five_is_pseudoElement k : 5 <= kind_rank k -> k = PseudoElement.
Proof. destruct k; simpl; intros H; first [reflexivity | lia]. Qed.

End RankOrder.

(** X6.  In every builder reached through the facade and successful calls,
    no fragment is directly followed by a fragment of lower rank; a fragment
    pushed by [combine] has no rank and may stand anywhere. *)
Theorem reachable_ranks_in_order (this : CssSelectorBuilder) :
  reachable this -> ranks_in_order (selectors this) = true.
Proof.
  induction 1 as [k v this Hcall
                 |A B HA HB selector1 combinator selector2 this Hcall
                 |k v this r this' _ IH Hcall
                 |A B HA HB selector1 combinator selector2 this r this' _ IH Hcall].
  - apply facade_append_state in Hcall.
    exact (ranks_in_order_append _ _ constructor _ _ eq_refl Hcall).
  - apply facade_combine_state in Hcall.
    exact (ranks_in_order_combine selector1 combinator selector2 constructor _ _
             eq_refl Hcall).
  - exact (ranks_in_order_append _ _ _ _ _ IH Hcall).
  - exact (ranks_in_order_combine selector1 combinator selector2 _ _ _ IH Hcall).
Qed.

Lemma reachable_ranks_in_order_witness :
  ranks_in_order (selectors (pushed div_main (combined "a" ">" "b"))) = true.
Proof.
  apply reachable_ranks_in_order.
  apply (reachable_combine
           {| selectors := [fragment (Element, "a")] |} ">"
           {| selectors := [fragment (Element, "b")] |}
           div_main (pushed div_main (combined "a" ">" "b"))
           (pushed div_main (combined "a" ">" "b"))); [|reflexivity].
  apply (reachable_append Id "main" {| selectors := [fragment (Element, "div")] |}
           div_main div_main); [|reflexivity].
  apply (reachable_facade_append Element "div"). reflexivity.
Defined.

(** X7.  A pseudo-element ends a selector: when the last fragment is a
    pseudo-element, every fragment-appending call throws and leaves the
    builder as it was, with the duplicate error for [pseudoElement] and the
    order error for the five other kinds. *)
Theorem nothing_after_pseudoElement
    (this : CssSelectorBuilder) (prevSelector : Selector) (k : Kind) (v : string) :
  last (selectors this) = Some prevSelector ->
  type prevSelector = Some "pseudoElement" ->
  append k v this =
    (Throw (if decide (k = PseudoElement) then DuplicateSelector else OrderViolation),
     this).
Proof.
  intros Hlast Htype.
  assert (Hok : order_ok (kind_type k) this = negb (Z.gtb 5 (kind_rank k))).
  { unfold order_ok. rewrite Hlast, Htype, order_kind. reflexivity. }
  rewrite append_eq, Hok.
  destruct (decide (k = PseudoElement)) as [->|Hne].
  - simpl. rewrite bool_decide_eq_true_2; [reflexivity|].
    unfold occurrences.
    apply last_Some in Hlast as [l' ->].
    rewrite filter_app, length_app, filter_cons.
    rewrite decide_True by exact Htype. simpl. lia.
  - replace (5 >? kind_rank k) with true; [reflexivity|].
    symmetry. apply Z.gtb_lt.
    destruct (Z.lt_ge_cases (kind_rank k) 5) as [Hlt|Hge]; [exact Hlt|].
    exfalso. apply Hne. apply rank_five_is_pseudoElement. exact Hge.
Qed.

Lemma nothing_after_pseudoElement_witness :
  append PseudoClass "hover" (pushed div_box (fragment (PseudoElement, "after")))
  = (Throw OrderViolation, pushed div_box (fragment (PseudoElement, "after"))).
Proof.
  apply (nothing_after_pseudoElement
           (pushed div_box (fragment (PseudoElement, "after")))
           (fragment (PseudoElement, "after")) PseudoClass "hover");
    reflexivity.
Defined.

(** X8.  [element] only succeeds at the start of a selector: on a builder
    reached through the public operations, a successful [element] call
    found a fragment pushed by [combine] at the end (and on a fresh builder
    it is the first call, see X1). *)
Theorem element_only_after_combine
    (this r this' : CssSelectorBuilder) (v : string) :
  reachable this ->
  append Element v this = (Normal r, this') ->
  exists prevSelector,
    last (selectors this) = Some prevSelector /\ type prevSelector = None.
Proof.
  intros Hreach H.
  destruct (well_typed_reachable this Hreach) as [Hwt Hne].
  apply append_normal in H as (Hok & Hfresh & _ & _).
  destruct (last (selectors this)) as [prevSelector|] eqn:Hlast.
  - exists prevSelector. split; [reflexivity|].
    pose proof Hlast as Hin. apply last_Some in Hin as [l' Hl'].
    assert (Hp : well_typed prevSelector).
    { rewrite Hl' in Hwt. apply Forall_app in Hwt as [_ Hwt].
      inversion Hwt; assumption. }
    destruct Hp as [Hnone|[k Hk]]; [exact Hnone|exfalso].
    unfold order_ok in Hok. rewrite Hlast, Hk in Hok.
    change "element" with (kind_type Element) in Hok.
    rewrite !order_kind in Hok. simpl in Hok.
    apply negb_true_iff in Hok. rewrite Z.gtb_ltb in Hok. apply Z.ltb_ge in Hok.
    apply rank_zero_is_element in Hok. subst k.
    simpl in Hfresh. apply bool_decide_eq_false_1 in Hfresh. apply Hfresh.
    unfold occurrences. rewrite Hl', filter_app, length_app, filter_cons.
    rewrite decide_True by exact Hk. simpl. lia.
  - exfalso. apply Hne. apply last_None. exact Hlast.
Qed.

Lemma element_only_after_combine_witness :
  exists prevSelector,
    last (selectors {| selectors := [combined "a" ">" "b"] |}) = Some prevSelector /\
    type prevSelector = None.
Proof.
  apply (element_only_after_combine
           {| selectors := [combined "a" ">" "b"] |}
           (pushed {| selectors := [combined "a" ">" "b"] |} (fragment (Element, "p")))
           (pushed {| selectors := [combined "a" ">" "b"] |} (fragment (Element, "p")))
           "p"); [|reflexivity].
  apply (reachable_facade_combine
           {| selectors := [fragment (Element, "a")] |} ">"
           {| selectors := [fragment (Element, "b")] |}).
  reflexivity.
Defined.

(** X9.  [combine] resets the order, not the cardinality: on the builder a
    successful [combine] leaves, a fragment-appending call of any kind
    succeeds unless its kind is limited and the builder held a fragment of
    that kind before the [combine], in which case it throws the duplicate
    error. *)
Theorem append_after_combine {A B} `{Stringifiable A} `{Stringifiable B}
    (selector1 : A) (combinator : string) (selector2 : B)
    (this r this' : CssSelectorBuilder) (k : Kind) (v : string) :
  combine selector1 combinator selector2 this = (Normal r, this') ->
  append k v this' =
    if limited k && bool_decide (0 < occurrences (kind_type k) this)%nat
    then (Throw DuplicateSelector, this')
    else (Normal (pushed this' (fragment (k, v))), pushed this' (fragment (k, v))).
Proof.
  rewrite combine_eq.
  destruct (call_stringify selector1) as [s1|]; [|discriminate].
  destruct (call_stringify selector2) as [s2|]; [|discriminate].
  intros [= _ <-]. rewrite append_eq.
  assert (Hok : order_ok (kind_type k) (pushed this (combined s1 combinator s2)) = true).
  { unfold order_ok, pushed. simpl. rewrite last_snoc. simpl.
    rewrite order_undefined. reflexivity. }
  rewrite Hok, occurrences_pushed.
  destruct (decide (type (combined s1 combinator s2) = Some (kind_type k)))
    as [Heq|_]; [discriminate Heq|].
  rewrite Nat.add_0_r. reflexivity.
Qed.

Lemma append_after_combine_witness :
  append Element "p" (pushed div_box (combined "div#main" "+" "table#data"))
  = (Throw DuplicateSelector, pushed div_box (combined "div#main" "+" "table#data")).
Proof.
  apply (append_after_combine div_main "+" table_data div_box
           (pushed div_box (combined "div#main" "+" "table#data"))
           (pushed div_box (combined "div#main" "+" "table#data")) Element "p").
  reflexivity.
Defined.

(** ** Which chains are accepted *)

Section Acceptance.

Implicit Types (this : CssSelectorBuilder) (k : Kind) (v : string)
  (calls : list (Kind * string)).

Lemma chain_cons k v calls this :
  chain ((k, v) :: calls) this =
    match append k v this with
    | (Normal _, this') => chain calls this'
    | (Throw e, this') => (Throw e, this')
    end.
Proof. reflexivity. Qed.

(** What a chain that completes tells about its calls. *)
Lemma chain_normal_inv calls : forall this this',
  chain calls this = (Normal tt, this') ->
  ranks_nondecreasing calls = true /\
  (forall k v rest, calls = (k, v) :: rest -> order_ok (kind_type k) this = true) /\
  (forall k, limited k = true ->
             calls_of_kind k calls = 0%nat \/
             (occurrences (kind_type k) this + calls_of_kind k calls <= 1)%nat).
Proof.
  induction calls as [|[k v] rest IH]; intros this this' Hrun.
  - split; [reflexivity|]. split; [discriminate|]. intros k _. left. reflexivity.
  - rewrite chain_cons in Hrun.
    destruct (append k v this) as [[r|e] this1] eqn:E; [|discriminate].
    apply append_normal in E as (Hok & Hfresh & _ & ->).
    destruct (IH _ _ Hrun) as (Hsorted & Hhead & Hcard).
    split; [|split].
    + destruct rest as [|[k' v'] rest']; [reflexivity|].
      change (Z.leb (kind_rank k) (kind_rank k')
              && ranks_nondecreasing ((k', v') :: rest') = true).
      rewrite Hsorted, andb_true_r.
      specialize (Hhead k' v' rest' eq_refl).
      unfold order_ok, pushed in Hhead. simpl in Hhead.
      rewrite last_snoc in Hhead. simpl in Hhead. rewrite !order_kind in Hhead.
      simpl in Hhead. apply negb_true_iff in Hhead.
      rewrite Z.gtb_ltb in Hhead. apply Z.ltb_ge in Hhead.
      apply Z.leb_le. exact Hhead.
    + intros k0 v0 rest0 [= <- <- <-]. exact Hok.
    + intros k0 Hlim. specialize (Hcard k0 Hlim).
      rewrite calls_of_kind_cons.
      rewrite occurrences_pushed in Hcard. simpl in Hcard.
      destruct (decide (k = k0)) as [->|Hne].
      * rewrite decide_True in Hcard by reflexivity.
        rewrite Hlim in Hfresh. simpl in Hfresh.
        apply bool_decide_eq_false_1 in Hfresh.
        right. lia.
      * rewrite decide_False in Hcard.
        -- destruct Hcard as [Hz|Hle]; [left | right]; lia.
        -- intros [= Heq]. apply Hne. apply kind_type_inj. exact Heq.
Qed.

End Acceptance.

(** X10.  The chains of fragment-appending calls that a fresh builder
    accepts are exactly those whose kinds are in non-decreasing rank order
    and which call [element], [id] and [pseudoElement] at most once each. *)
Theorem chain_accepted_iff (calls : list (Kind * string)) :
  completion (chain calls) constructor = Normal tt <->
  ranks_nondecreasing calls = true /\ respects_cardinality calls = true.
Proof.
  split.
  - unfold completion. destruct (chain calls constructor) as [c this'] eqn:E.
    simpl. intros ->.
    destruct (chain_normal_inv calls _ _ E) as (Hsorted & _ & Hcard).
    split; [exact Hsorted|].
    unfold respects_cardinality. apply forallb_forall. intros k _.
    destruct (limited k) eqn:Hlim; [|reflexivity]. simpl.
    apply Nat.leb_le. specialize (Hcard k Hlim).
    change (occurrences (kind_type k) constructor) with 0%nat in Hcard. lia.
  - intros [Hsorted Hcard]. unfold completion.
    rewrite chain_in_order; [reflexivity | exact Hsorted | reflexivity |].
    intros k Hlim. simpl. eapply respects_cardinality_limited; eassumption.
Qed.

(** X11.  A chain stops at its first rejected call: whatever the calls, the
    builder holds afterwards the fragments it had followed by the fragments
    of a prefix of the calls, in call order, and the prefix is the whole
    chain exactly when the chain completes. *)
Theorem chain_keeps_accepted_prefix (calls : list (Kind * string))
    (this : CssSelectorBuilder) :
  exists n : nat,
    (n <= length calls)%nat /\
    selectors (after (chain calls) this) =
      (selectors this ++ (fragment <$> take n calls))%list /\
    (completion (chain calls) this = Normal tt <-> n = length calls).
Proof.
  revert this. induction calls as [|[k v] rest IH]; intros this.
  - exists 0%nat. split; [reflexivity|]. split; [|split; reflexivity].
    simpl. rewrite app_nil_r. reflexivity.
  - unfold after, completion. rewrite chain_cons, append_eq.
    destruct (order_ok _ this);
      [destruct (limited k && _)|].
    + exists 0%nat. simpl. split; [lia|]. split; [|split; discriminate].
      rewrite app_nil_r. reflexivity.
    + destruct (IH (pushed this (fragment (k, v)))) as (n & Hle & Hsel & Hiff).
      exists (S n). simpl. split; [lia|]. split.
      * unfold after in Hsel. rewrite Hsel. unfold pushed. simpl.
        rewrite <- app_assoc. reflexivity.
      * unfold completion in Hiff. rewrite Hiff. split; [congruence | lia].
    + exists 0%nat. simpl. split; [lia|]. split; [|split; discriminate].
      rewrite app_nil_r. reflexivity.
Qed.

(** * Further properties of [Rectangle], [getJSON] and [fromJSON] *)

Section ObjectsFacts.

Lemma Rectangle_own (width height : Json) :
  own (Rectangle width height) =
    [("width", data_property width); ("height", data_property height)].
Proof. vm_compute. reflexivity. Qed.

Lemma own_property_fields (props : list (string * Json)) (key : string) :
  own_property ((fun entry => (entry.1, data_property entry.2)) <$> props) key
  = data_property <$> find_method props key.
Proof.
  induction props as [|[key' v] props IH]; [reflexivity|].
  simpl. destruct (String.eqb key' key); [reflexivity | exact IH].
Qed.

Lemma parse_value_blank (fuel : nat) (text : string) :
  skip_whitespace text = "" ->
  parse_value (S fuel) text = Some (Throw SyntaxError).
Proof. intros H. simpl. rewrite H. reflexivity. Qed.

End ObjectsFacts.

(** X12.  [new Rectangle(width, height)] holds the two arguments under
    [width] and [height], and [getArea()], found on the prototype, returns
    their product (here for integers whose product a number holds
    exactly). *)
Theorem Rectangle_getArea (w h : Z) :
  safe_integer (h * w) = true ->
  Get (Rectangle (JNumber w) (JNumber h)) "width" = Some (JNumber w) /\
  Get (Rectangle (JNumber w) (JNumber h)) "height" = Some (JNumber h) /\
  call_method (Rectangle (JNumber w) (JNumber h)) "getArea"
  = Some (Normal (JNumber (h * w))).
Proof.
  intros Hsafe.
  assert (Hw : Get (Rectangle (JNumber w) (JNumber h)) "width" = Some (JNumber w)).
  { unfold Get. rewrite Rectangle_own. reflexivity. }
  assert (Hh : Get (Rectangle (JNumber w) (JNumber h)) "height" = Some (JNumber h)).
  { unfold Get. rewrite Rectangle_own. reflexivity. }
  split; [exact Hw | split; [exact Hh|]].
  unfold call_method. rewrite Rectangle_own.
  change (own_property [("width", data_property (JNumber w));
                        ("height", data_property (JNumber h))] "getArea")
    with (@None PropertyDescriptor).
  change (prototype (Rectangle (JNumber w) (JNumber h))) with (Some Rectangle_prototype).
  cbv beta iota.
  change (find_method (methods Rectangle_prototype) "getArea")
    with (Some (fun this : string -> option Json => multiply (this "height") (this "width"))).
  cbv beta iota. rewrite Hw, Hh. unfold multiply. rewrite Hsafe. reflexivity.
Qed.

Lemma Rectangle_getArea_witness :
  call_method (Rectangle (JNumber 3) (JNumber 4)) "getArea" = Some (Normal (JNumber 12)).
Proof.
  apply (Rectangle_getArea 3 4). reflexivity.
Defined.

Section ParsedValues.

Lemma unescape_ascii (e ch : ascii) :
  unescape e = Some (Some ch) -> N.ltb (N_of_ascii ch) 128 = true.
Proof.
  destruct e as [[] [] [] [] [] [] [] []]; vm_compute;
    intros H; first [discriminate H | injection H as <-; reflexivity].
Qed.

Lemma parse_string_body_ascii (n : nat) : forall (s body rest : string),
  (String.length s <= n)%nat ->
  parse_string_body s = Some (Normal (body, rest)) ->
  forallb (fun c => N.ltb (N_of_ascii c) 128) (list_ascii_of_string body) = true.
Proof.
  induction n as [|n IH]; intros s body rest Hlen Hparse.
  - destruct s; [discriminate Hparse | simpl in Hlen; lia].
  - destruct s as [|c s]; [discriminate Hparse|].
    simpl in Hlen. cbn [parse_string_body] in Hparse.
    destruct (N.eqb (N_of_ascii c) 34); [injection Hparse as <- _; reflexivity|].
    destruct (N.eqb (N_of_ascii c) 92).
    + destruct s as [|e s]; [discriminate Hparse|].
      destruct (unescape e) as [[ch|]|] eqn:He; [|discriminate Hparse..].
      destruct (parse_string_body s) as [[[body' rest']|]|] eqn:Hs;
        [|discriminate Hparse..].
      simpl in Hparse. injection Hparse as <- _.
      simpl. rewrite (unescape_ascii e ch He). simpl.
      apply (IH s body' rest'); [simpl in Hlen; lia | exact Hs].
    + destruct (N.ltb (N_of_ascii c) 32); [discriminate Hparse|].
      destruct (N.leb 128 (N_of_ascii c)) eqn:Hc; [discriminate Hparse|].
      destruct (parse_string_body s) as [[[body' rest']|]|] eqn:Hs;
        [|discriminate Hparse..].
      simpl in Hparse. injection Hparse as <- _.
      simpl. apply N.leb_gt in Hc. apply N.ltb_lt in Hc. rewrite Hc. simpl.
      apply (IH s body' rest'); [lia | exact Hs].
Qed.

Lemma parse_members_not_string value (n : nat) : forall s acc v rest,
  parse_members value n s acc = Some (Normal (v, rest)) -> is_string v = false.
Proof.
  induction n as [|n IH]; intros s acc v rest H; [discriminate H|].
  cbn [parse_members] in H.
  destruct (skip_whitespace s) as [|c s1]; [discriminate H|].
  destruct (Ascii.eqb c dquote); [|discriminate H].
  destruct (parse_string_body s1) as [[[key rest1]|]|]; [|discriminate H..].
  cbn [pbind] in H.
  destruct (skip_whitespace rest1) as [|c2 rest2]; [discriminate H|].
  destruct (Ascii.eqb_spec c2 ":"%char) as [->|Hne].
  - destruct (value rest2) as [[[v3 rest3]|]|]; [|discriminate H..].
    cbn [pbind] in H.
    destruct (skip_whitespace rest3) as [|c4 rest4]; [discriminate H|].
    destruct (Ascii.eqb_spec c4 ","%char) as [->|Hne4].
    + exact (IH _ _ _ _ H).
    + destruct (Ascii.eqb_spec c4 "}"%char) as [->|Hne5].
      * injection H as <- _. reflexivity.
      * exfalso. destruct c4 as [[] [] [] [] [] [] [] []];
          first [discriminate H | apply Hne4; reflexivity | apply Hne5; reflexivity].
  - exfalso. destruct c2 as [[] [] [] [] [] [] [] []];
      first [discriminate H | apply Hne; reflexivity].
Qed.

Lemma parse_elements_not_string value (n : nat) : forall s acc v rest,
  parse_elements value n s acc = Some (Normal (v, rest)) -> is_string v = false.
Proof.
  induction n as [|n IH]; intros s acc v rest H; [discriminate H|].
  cbn [parse_elements] in H.
  destruct (value s) as [[[v1 rest1]|]|]; [|discriminate H..].
  cbn [pbind] in H.
  destruct (skip_whitespace rest1) as [|c rest2]; [discriminate H|].
  destruct (Ascii.eqb_spec c ","%char) as [->|Hne].
  - exact (IH _ _ _ _ H).
  - destruct (Ascii.eqb_spec c "]"%char) as [->|Hne2].
    + injection H as <- _. reflexivity.
    + exfalso. destruct c as [[] [] [] [] [] [] [] []];
        first [discriminate H | apply Hne; reflexivity | apply Hne2; reflexivity].
Qed.

Lemma parse_number_not_string s v rest :
  parse_number s = Some (Normal (v, rest)) -> is_string v = false.
Proof.
  unfold parse_number.
  destruct (match s with
            | String "-"%char rest0 => (true, rest0)
            | _ => (false, s)
            end) as [negative s1].
  destruct s1 as [|c r]; [discriminate|].
  destruct (digit_of c) as [d|]; [|discriminate].
  destruct (if Z.eqb d 0 then (0, r) else read_digits r d) as [n rest'].
  destruct (Z.eqb d 0 && starts_digit rest'); [discriminate|].
  destruct (starts_fraction_or_exponent rest'); [discriminate|].
  destruct (safe_integer n); [|discriminate].
  intros [= <- _]. reflexivity.
Qed.

Lemma parse_literal_not_string word v s v' rest :
  is_string v = false ->
  parse_literal word v s = Some (Normal (v', rest)) -> is_string v' = false.
Proof.
  intros Hv. unfold parse_literal.
  destruct (strip_prefix word s); [|discriminate].
  intros [= <- _]. exact Hv.
Qed.

Lemma parse_value_string_ascii (fuel : nat) (s body rest : string) :
  parse_value fuel s = Some (Normal (JString body, rest)) ->
  forallb (fun c => N.ltb (N_of_ascii c) 128) (list_ascii_of_string body) = true.
Proof.
  destruct fuel as [|fuel]; [discriminate|].
  cbn [parse_value].
  destruct (skip_whitespace s) as [|c r]; [discriminate|].
  cbv zeta.
  destruct (N.eqb (N_of_ascii c) 123).
  { intros H. exfalso.
    assert (Hns : is_string (JString body) = false); [|discriminate Hns].
    destruct (skip_whitespace r) as [|c1 r1].
    - exact (parse_members_not_string _ _ _ _ _ _ H).
    - destruct (Ascii.eqb_spec c1 "}"%char) as [->|Hne].
      + discriminate H.
      + assert (H' : parse_members (parse_value fuel) fuel r []
                     = Some (Normal (JString body, rest))).
        { destruct c1 as [[] [] [] [] [] [] [] []];
            first [exact H | exfalso; apply Hne; reflexivity]. }
        exact (parse_members_not_string _ _ _ _ _ _ H'). }
  destruct (N.eqb (N_of_ascii c) 91).
  { intros H. exfalso.
    assert (Hns : is_string (JString body) = false); [|discriminate Hns].
    destruct (skip_whitespace r) as [|c1 r1].
    - exact (parse_elements_not_string _ _ _ _ _ _ H).
    - destruct (Ascii.eqb_spec c1 "]"%char) as [->|Hne].
      + discriminate H.
      + assert (H' : parse_elements (parse_value fuel) fuel r []
                     = Some (Normal (JString body, rest))).
        { destruct c1 as [[] [] [] [] [] [] [] []];
            first [exact H | exfalso; apply Hne; reflexivity]. }
        exact (parse_elements_not_string _ _ _ _ _ _ H'). }
  destruct (N.eqb (N_of_ascii c) 34).
  { destruct (parse_string_body r) as [[[b after]|]|] eqn:Hb; [|discriminate..].
    cbn [pbind]. intros [= <- _].
    exact (parse_string_body_ascii _ r b after (le_n _) Hb). }
  destruct (N.eqb (N_of_ascii c) 110).
  { intros H. apply parse_literal_not_string in H; [discriminate H | reflexivity]. }
  destruct (N.eqb (N_of_ascii c) 116).
  { intros H. apply parse_literal_not_string in H; [discriminate H | reflexivity]. }
  destruct (N.eqb (N_of_ascii c) 102).
  { intros H. apply parse_literal_not_string in H; [discriminate H | reflexivity]. }
  destruct (N.leb 128 (N_of_ascii c)); [discriminate|].
  intros H. apply parse_number_not_string in H. discriminate H.
Qed.

Lemma descriptors_of_parsed (text : string) (v : Json) :
  JSON_parse text = Some (Normal v) ->
  exists c, Object_getOwnPropertyDescriptors v = Some c.
Proof.
  unfold JSON_parse.
  destruct (parse_value (S (String.length text)) text) as [[[v0 rest]|]|] eqn:Hv;
    [|discriminate..].
  cbn [pbind].
  destruct (skip_whitespace rest) as [|c r].
  - intros [= ->]. destruct v as [|b|n|s|l|props]; try (eexists; reflexivity).
    apply parse_value_string_ascii in Hv. simpl. rewrite Hv. eexists. reflexivity.
  - destruct (N.leb 128 (N_of_ascii c)); discriminate.
Qed.

Lemma descriptors_throw_TypeError (v : Json) (e : Exception) :
  Object_getOwnPropertyDescriptors v = Some (Throw e) -> e = TypeError.
Proof.
  destruct v as [|b|n|s|l|props]; simpl; try discriminate.
  - intros [= <-]. reflexivity.
  - destruct (forallb _ _); discriminate.
Qed.

End ParsedValues.

(** X13.  With a value that is neither an object nor [null] as prototype,
    [fromJSON] never returns an object, whatever the text.  On every text
    that the model of [JSON.parse] covers it throws: the exception of
    [JSON.parse] when the text is malformed, a [TypeError] when the text is
    well-formed. *)
Theorem fromJSON_primitive_prototype (text : string) :
  (forall obj, fromJSON ProtoPrimitive text <> Some (Normal obj)) /\
  (forall c, JSON_parse text = Some c ->
             fromJSON ProtoPrimitive text =
               Some (Throw (match c with Throw e => e | Normal _ => TypeError end))).
Proof.
  split.
  - intros obj. unfold fromJSON, pbind.
    destruct (JSON_parse text) as [[parsed|e]|]; [|discriminate|discriminate].
    destruct (Object_getOwnPropertyDescriptors parsed) as [[descriptors|e]|];
      discriminate.
  - intros c Hparse. unfold fromJSON. rewrite Hparse.
    destruct c as [v|e]; [|reflexivity].
    cbn [pbind].
    destruct (descriptors_of_parsed text v Hparse) as [[descriptors|e] Hd];
      rewrite Hd; [reflexivity|].
    cbn [pbind]. rewrite (descriptors_throw_TypeError v e Hd). reflexivity.
Qed.

Lemma fromJSON_primitive_prototype_witness :
  fromJSON ProtoPrimitive height10_width20_text = Some (Throw TypeError) /\
  fromJSON ProtoPrimitive "{" = Some (Throw SyntaxError).
Proof.
  split.
  - apply (proj2 (fromJSON_primitive_prototype height10_width20_text)
             (Normal height10_width20)).
    vm_compute. reflexivity.
  - apply (proj2 (fromJSON_primitive_prototype "{") (Throw SyntaxError)).
    vm_compute. reflexivity.
Defined.

(** X14.  On a text that is empty or holds only blanks, [fromJSON] throws
    the syntax error of [JSON.parse], for every prototype argument. *)
Theorem fromJSON_blank_text (proto : ProtoValue) (text : string) :
  skip_whitespace text = "" ->
  fromJSON proto text = Some (Throw SyntaxError).
Proof.
  intros H. unfold fromJSON, JSON_parse.
  rewrite (parse_value_blank _ _ H). reflexivity.
Qed.

Lemma fromJSON_blank_text_witness :
  fromJSON (ProtoObject Rectangle_prototype) "  " = Some (Throw SyntaxError).
Proof.
  apply (fromJSON_blank_text (ProtoObject Rectangle_prototype) "  "). reflexivity.
Defined.

(** X15.  When the text parses to an object, [fromJSON] returns an object
    with the given prototype whose own properties are the parsed fields, in
    the same order, all writable, enumerable and configurable: reading a
    parsed key gives the parsed value, a key that was not parsed is not an
    own property, and calling a key that holds parsed data throws a
    [TypeError], also when the prototype has a method of that name. *)
Theorem fromJSON_object_fields (p : Prototype) (text : string)
    (props : list (string * Json)) :
  JSON_parse text = Some (Normal (JObject props)) ->
  let obj := {| prototype := Some p;
                own := (fun entry => (entry.1, data_property entry.2)) <$> props |} in
  fromJSON (ProtoObject p) text = Some (Normal obj) /\
  (forall key v, find_method props key = Some v -> Get obj key = Some v) /\
  (forall key, own_property (own obj) key = data_property <$> find_method props key) /\
  (forall key v, find_method props key = Some v ->
                 call_method obj key = Some (Throw TypeError)).
Proof.
  intros Hparse obj. split; [|split; [|split]].
  - unfold fromJSON. rewrite Hparse. reflexivity.
  - intros key v Hfind. unfold Get. unfold obj at 1. cbn [own].
    rewrite own_property_fields, Hfind. reflexivity.
  - intros key. apply own_property_fields.
  - intros key v Hfind. unfold call_method. unfold obj at 1. cbn [own].
    rewrite own_property_fields, Hfind. reflexivity.
Qed.

Lemma fromJSON_object_fields_witness :
  fromJSON (ProtoObject Rectangle_prototype) height10_width20_text
  = Some (Normal {| prototype := Some Rectangle_prototype;
                    own := [("height", data_property (JNumber 10));
                            ("width", data_property (JNumber 20))] |}).
Proof.
  apply (fromJSON_object_fields Rectangle_prototype height10_width20_text
           [("height", JNumber 10); ("width", JNumber 20)]).
  vm_compute. reflexivity.
Defined.

(** ** Reading back what [getJSON] writes *)

Section Decimal.

Lemma digit_of_pretty_N_char (m : N) :
  (m < 10)%N -> digit_of (pretty_N_char m) = Some (Z.of_N m).
Proof.
  intros H.
  assert (m = 0 \/ m = 1 \/ m = 2 \/ m = 3 \/ m = 4 \/ m = 5 \/ m = 6 \/ m = 7
          \/ m = 8 \/ m = 9)%N as Hm by lia.
  repeat (destruct Hm as [->|Hm]; [reflexivity|]). subst m. reflexivity.
Qed.

Lemma pretty_N_go_app (x : N) : forall s, pretty_N_go x s = pretty_N_go x "" +:+ s.
Proof.
  induction (N.lt_wf_0 x) as [x _ IH]. intros s.
  destruct (decide (x = 0)%N) as [->|Hx]; [reflexivity|].
  assert (Hlt : (x `div` 10 < x)%N) by (apply N.div_lt; lia).
  rewrite !(pretty_N_go_step x) by lia.
  rewrite (IH _ Hlt (String (pretty_N_char (x `mod` 10)) s)).
  rewrite (IH _ Hlt (String (pretty_N_char (x `mod` 10)) "")).
  rewrite append_assoc. reflexivity.
Qed.

Lemma read_digits_pretty_N (x : N) : forall rest,
  read_digits (pretty_N_go x "" +:+ rest) 0 = read_digits rest (Z.of_N x).
Proof.
  induction (N.lt_wf_0 x) as [x _ IH]. intros rest.
  destruct (decide (x = 0)%N) as [->|Hx]; [reflexivity|].
  assert (Hlt : (x `div` 10 < x)%N) by (apply N.div_lt; lia).
  rewrite (pretty_N_go_step x) by lia.
  rewrite pretty_N_go_app, append_assoc.
  rewrite (IH _ Hlt).
  change (String (pretty_N_char (x `mod` 10)) "" +:+ rest)
    with (String (pretty_N_char (x `mod` 10)) rest).
  simpl read_digits. rewrite digit_of_pretty_N_char by (apply N.mod_lt; lia).
  f_equal. rewrite <- N2Z.inj_mul with (n := 10%N), <- N2Z.inj_add.
  f_equal. symmetry. apply N.div_mod. lia.
Qed.

Lemma pretty_N_go_head (x : N) :
  (0 < x)%N ->
  exists c t d, pretty_N_go x "" = String c t /\ digit_of c = Some d /\ 0 < d.
Proof.
  induction (N.lt_wf_0 x) as [x _ IH]. intros Hx.
  assert (Hlt : (x `div` 10 < x)%N) by (apply N.div_lt; lia).
  rewrite (pretty_N_go_step x) by lia. rewrite pretty_N_go_app.
  destruct (decide (x `div` 10 = 0)%N) as [Hz|Hnz].
  - rewrite Hz. exists (pretty_N_char (x `mod` 10)), "", (Z.of_N (x `mod` 10)).
    split; [reflexivity|]. split.
    + apply digit_of_pretty_N_char. apply N.mod_lt. lia.
    + assert (x `mod` 10 = x)%N as ->; [|lia].
      apply N.mod_small. apply N.div_small_iff in Hz; lia.
  - assert (Hpos' : (0 < x `div` 10)%N) by (apply N.neq_0_lt_0; exact Hnz).
    destruct (IH _ Hlt Hpos') as (c & t & d & Heq & Hd & Hpos).
    rewrite Heq. exists c, (t +:+ String (pretty_N_char (x `mod` 10)) ""), d.
    split; [reflexivity|]. split; assumption.
Qed.

Lemma safe_integer_spec (n : Z) :
  safe_integer n = true <-> - 9007199254740991 <= n <= 9007199254740991.
Proof.
  unfold safe_integer.
  change (2 ^ 53 - 1) with 9007199254740991.
  rewrite andb_true_iff, !Z.leb_le. reflexivity.
Qed.

Lemma read_digits_stop (rest : string) (acc : Z) :
  starts_digit rest = false -> read_digits rest acc = (acc, rest).
Proof.
  destruct rest as [|c r]; [reflexivity|]. simpl.
  destruct (digit_of c); [|reflexivity].
  intros H. apply bool_decide_eq_false_1 in H. exfalso. apply H. eexists. reflexivity.
Qed.

Lemma parse_number_unsigned (c : ascii) (u : string) (d : Z) :
  digit_of c = Some d ->
  parse_number (String c u) =
    let (n, rest') := if Z.eqb d 0 then (0, u) else read_digits u d in
    if Z.eqb d 0 && starts_digit rest' then Some (Throw SyntaxError)
    else if starts_fraction_or_exponent rest' then None
    else if safe_integer n then Some (Normal (JNumber n, rest'))
    else None.
Proof.
  intros Hd.
  assert (Hc : c <> "-"%char) by (intros ->; vm_compute in Hd; discriminate Hd).
  unfold parse_number.
  destruct c as [[] [] [] [] [] [] [] []]; try (exfalso; apply Hc; reflexivity);
    cbv beta iota; rewrite Hd; reflexivity.
Qed.

Lemma parse_number_pretty_N (x : N) (rest : string) :
  (0 < x)%N ->
  safe_integer (Z.of_N x) = true ->
  starts_digit rest = false ->
  starts_fraction_or_exponent rest = false ->
  exists c u d,
    pretty_N_go x "" +:+ rest = String c u /\ digit_of c = Some d /\
    parse_number (String c u) = Some (Normal (JNumber (Z.of_N x), rest)).
Proof.
  intros Hx Hsafe Hrest Hfrac.
  destruct (pretty_N_go_head x Hx) as (c & t & d & Heq & Hd & Hpos).
  exists c, (t +:+ rest), d.
  split; [rewrite Heq; reflexivity|]. split; [exact Hd|].
  rewrite (parse_number_unsigned c _ d Hd).
  assert (Hread : read_digits (t +:+ rest) d = (Z.of_N x, rest)).
  { pose proof (read_digits_pretty_N x rest) as H.
    rewrite Heq in H.
    change (String c t +:+ rest) with (String c (t +:+ rest)) in H.
    simpl read_digits in H. rewrite Hd in H.
    rewrite Z.add_0_l in H. rewrite H. apply read_digits_stop. exact Hrest. }
  replace (Z.eqb d 0) with false by (symmetry; apply Z.eqb_neq; lia).
  rewrite Hread. simpl. rewrite Hfrac, Hsafe. reflexivity.
Qed.

Lemma parse_value_number_start (fuel : nat) (c : ascii) (u : string) (d : Z) :
  digit_of c = Some d \/ c = "-"%char ->
  parse_value (S fuel) (String c u) = parse_number (String c u).
Proof.
  intros H.
  destruct c as [[] [] [] [] [] [] [] []];
    first [reflexivity
          | exfalso; destruct H as [H|H]; [vm_compute in H | ]; discriminate H].
Qed.

(** Parsing the decimal form of a safe integer. *)
Lemma parse_value_pretty (fuel : nat) (n : Z) (rest : string) :
  safe_integer n = true ->
  starts_digit rest = false ->
  starts_fraction_or_exponent rest = false ->
  parse_value (S fuel) (pretty n +:+ rest) = Some (Normal (JNumber n, rest)).
Proof.
  intros Hsafe Hrest Hfrac.
  destruct n as [|p|p].
  - change (pretty 0 +:+ rest) with (String "0" rest).
    rewrite (parse_value_number_start fuel "0" rest 0) by (left; reflexivity).
    rewrite (parse_number_unsigned "0" rest 0 eq_refl).
    simpl. rewrite Hrest, Hfrac. reflexivity.
  - assert (Hx : (0 < N.pos p)%N) by lia.
    destruct (parse_number_pretty_N (N.pos p) rest Hx Hsafe Hrest Hfrac)
      as (c & u & d & Heq & Hd & Hparse).
    change (pretty (Z.pos p)) with (pretty_N_go (N.pos p) "").
    rewrite Heq, (parse_value_number_start fuel c u d) by (left; exact Hd).
    exact Hparse.
  - assert (Hx : (0 < N.pos p)%N) by lia.
    assert (Hsafe' : safe_integer (Z.of_N (N.pos p)) = true).
    { apply safe_integer_spec. apply safe_integer_spec in Hsafe. lia. }
    destruct (parse_number_pretty_N (N.pos p) rest Hx Hsafe' Hrest Hfrac)
      as (c & u & d & Heq & Hd & Hparse).
    change (pretty (Z.neg p) +:+ rest)
      with (String "-" (pretty_N_go (N.pos p) "" +:+ rest)).
    rewrite (parse_value_number_start fuel "-" _ 0) by (right; reflexivity).
    rewrite Heq. rewrite (parse_number_unsigned c u d Hd) in Hparse.
    unfold parse_number. cbv beta iota. rewrite Hd.
    destruct (if Z.eqb d 0 then (0, u) else read_digits u d) as [n rest'].
    destruct (Z.eqb d 0 && starts_digit rest'); [discriminate Hparse|].
    destruct (starts_fraction_or_exponent rest'); [discriminate Hparse|].
    destruct (safe_integer n); [|discriminate Hparse].
    injection Hparse as -> ->. reflexivity.
Qed.

End Decimal.

Section FlatObjects.

Lemma quote_char_plain c : plain_char c = true -> quote_char c = Some (String c "").
Proof.
  destruct c as [[] [] [] [] [] [] [] []]; first [reflexivity | discriminate].
Qed.

Lemma quote_chars_plain s : plain s = true -> quote_chars s = Some s.
Proof.
  induction s as [|c s IH]; [reflexivity|].
  simpl. intros H. apply andb_prop in H as [Hc Hs].
  rewrite (quote_char_plain c Hc), (IH Hs). reflexivity.
Qed.

Lemma parse_string_body_plain_char c r :
  plain_char c = true ->
  parse_string_body (String c r) =
    pbind (parse_string_body r) (fun '(body, after) => Some (Normal (String c body, after))).
Proof.
  destruct c as [[] [] [] [] [] [] [] []]; first [reflexivity | discriminate].
Qed.

Lemma parse_string_body_plain s tail :
  plain s = true ->
  parse_string_body (s +:+ String dquote tail) = Some (Normal (s, tail)).
Proof.
  induction s as [|c s IH]; [reflexivity|].
  simpl plain. intros H. apply andb_prop in H as [Hc Hs].
  change (String c s +:+ String dquote tail) with (String c (s +:+ String dquote tail)).
  rewrite (parse_string_body_plain_char c _ Hc), (IH Hs). reflexivity.
Qed.

Lemma QuoteJSONString_plain s :
  plain s = true -> QuoteJSONString s = Some (String dquote (s +:+ String dquote "")).
Proof.
  intros H. unfold QuoteJSONString. rewrite (quote_chars_plain s H). reflexivity.
Qed.

Lemma serialize_flat_properties (fields : list (string * Z)) :
  Forall field_ok fields ->
  (fix serialize_properties (l : list (string * Json)) : option (list string) :=
     match l with
     | [] => Some []
     | (key, e) :: rest =>
         sk ← QuoteJSONString key;
         se ← SerializeJSONProperty e;
         srest ← serialize_properties rest;
         Some ((sk +:+ ":" +:+ se) :: srest)
     end) (member <$> fields)
  = Some (member_text <$> fields).
Proof.
  induction 1 as [|[key n] fields [Hkey Hsafe] _ IH]; [reflexivity|].
  simpl in Hkey, Hsafe. apply andb_prop in Hkey as [Hplain _].
  cbn [fmap list_fmap member fst snd]. rewrite IH.
  rewrite (QuoteJSONString_plain key Hplain).
  cbn [SerializeJSONProperty]. rewrite Hsafe.
  cbn [mbind option_bind]. unfold member_text. cbn [fst snd].
  f_equal. f_equal.
  change (String dquote (key +:+ String dquote "") +:+ ":" +:+ pretty n)
    with (String dquote ((key +:+ String dquote "") +:+ ":" +:+ pretty n)).
  rewrite append_assoc. reflexivity.
Qed.

Lemma getJSON_flat_object (fields : list (string * Z)) :
  Forall field_ok fields ->
  getJSON (flat_object fields) = Some (flat_text fields).
Proof.
  intros H. unfold getJSON, JSON_stringify, flat_object, flat_text.
  cbn [SerializeJSONProperty]. rewrite (serialize_flat_properties fields H).
  reflexivity.
Qed.

Lemma replace_value_fresh {V} (key : string) (v : V) (acc : list (string * V)) :
  key ∉ acc.*1 -> replace_value key v acc = None.
Proof.
  induction acc as [|[key' v'] acc IH]; [reflexivity|].
  intros Hnotin. simpl.
  destruct (String.eqb_spec key' key) as [->|Hne].
  - exfalso. apply Hnotin. simpl. left.
  - rewrite IH; [reflexivity|]. intros Hin. apply Hnotin. simpl. right. exact Hin.
Qed.

Lemma CreateDataProperty_fresh {V} (key : string) (v : V) (acc : list (string * V)) :
  key ∉ acc.*1 -> array_index key = None ->
  CreateDataProperty acc key v = (acc ++ [(key, v)])%list.
Proof.
  intros Hnotin Hindex. unfold CreateDataProperty.
  rewrite (replace_value_fresh key v acc Hnotin), Hindex. reflexivity.
Qed.

Lemma parse_members_S (value : string -> Partial (Json * string)) (n : nat)
    (s : string) (acc : list (string * Json)) :
  parse_members value (S n) s acc =
    match skip_whitespace s with
    | String c rest =>
        if Ascii.eqb c dquote then
          pbind (parse_string_body rest) (fun '(key, rest1) =>
            match skip_whitespace rest1 with
            | String ":"%char rest2 =>
                pbind (value rest2) (fun '(v, rest3) =>
                  let acc' := CreateDataProperty acc key v in
                  match skip_whitespace rest3 with
                  | String ","%char rest4 => parse_members value n rest4 acc'
                  | String "}"%char rest4 => Some (Normal (JObject acc', rest4))
                  | _ => Some (Throw SyntaxError)
                  end)
            | _ => Some (Throw SyntaxError)
            end)
        else Some (Throw SyntaxError)
    | EmptyString => Some (Throw SyntaxError)
    end.
Proof. reflexivity. Qed.

(** One member [key:n] of an object, followed by [rest]. *)
Lemma parse_members_member (fuel n : nat) (field : string * Z) (rest : string)
    (acc : list (string * Json)) :
  field_ok field ->
  starts_digit rest = false ->
  starts_fraction_or_exponent rest = false ->
  parse_members (parse_value (S fuel)) (S n) (member_text field +:+ rest) acc =
    let acc' := CreateDataProperty acc field.1 (JNumber field.2) in
    match skip_whitespace rest with
    | String ","%char rest4 => parse_members (parse_value (S fuel)) n rest4 acc'
    | String "}"%char rest4 => Some (Normal (JObject acc', rest4))
    | _ => Some (Throw SyntaxError)
    end.
Proof.
  destruct field as [key v]. intros [Hkey Hsafe] Hrest Hfrac.
  simpl in Hkey, Hsafe. apply andb_prop in Hkey as [Hplain _].
  rewrite parse_members_S. unfold member_text. cbn [fst snd].
  change (String dquote (key +:+ String dquote (String ":" (pretty v))) +:+ rest)
    with (String dquote ((key +:+ String dquote (String ":" (pretty v))) +:+ rest)).
  rewrite append_assoc.
  change (String dquote (String ":" (pretty v)) +:+ rest)
    with (String dquote (String ":" (pretty v +:+ rest))).
  change (skip_whitespace (String dquote ?s)) with (String dquote s).
  change (Ascii.eqb dquote dquote) with true. cbv iota.
  rewrite (parse_string_body_plain key _ Hplain). cbn [pbind].
  change (skip_whitespace (String ":" ?s)) with (String ":" s). cbv iota beta.
  rewrite (parse_value_pretty fuel v rest Hsafe Hrest Hfrac). reflexivity.
Qed.

Lemma parse_members_flat (fuel : nat) (fields : list (string * Z)) :
  forall (acc : list (string * Json)) (n : nat) (tail : string),
  fields <> [] ->
  (length fields <= n)%nat ->
  Forall field_ok fields ->
  NoDup (acc.*1 ++ fields.*1) ->
  parse_members (parse_value (S fuel)) n
    (String.concat "," (member_text <$> fields) +:+ String "}" tail) acc
  = Some (Normal (JObject (acc ++ (member <$> fields)), tail)).
Proof.
  induction fields as [|p fields IH]; intros acc n tail Hne Hlen Hok Hnodup;
    [contradiction|].
  destruct n as [|n]; [simpl in Hlen; lia|].
  apply Forall_cons in Hok as [Hp Hok].
  assert (Hfresh : CreateDataProperty acc p.1 (JNumber p.2) = (acc ++ [member p])%list).
  { apply CreateDataProperty_fresh.
    - apply NoDup_app in Hnodup as (_ & Hdisj & _).
      intros Hin. apply (Hdisj _ Hin). simpl. left.
    - destruct Hp as [Hkey _]. apply andb_prop in Hkey as [_ Hindex].
      apply bool_decide_eq_true_1 in Hindex. exact Hindex. }
  destruct fields as [|q fields].
  - change (String.concat "," (member_text <$> [p])) with (member_text p).
    rewrite (parse_members_member fuel n p (String "}" tail) acc Hp eq_refl eq_refl).
    cbv zeta. rewrite Hfresh. reflexivity.
  - change (String.concat "," (member_text <$> p :: q :: fields))
      with (member_text p +:+ "," +:+ String.concat "," (member_text <$> q :: fields)).
    rewrite append_assoc.
    change (("," +:+ String.concat "," (member_text <$> q :: fields)) +:+ String "}" tail)
      with (String ","
              (String.concat "," (member_text <$> q :: fields) +:+ String "}" tail)).
    rewrite (parse_members_member fuel n p
               (String ","
                  (String.concat "," (member_text <$> q :: fields) +:+ String "}" tail))
               acc Hp eq_refl eq_refl).
    cbv zeta. rewrite Hfresh.
    change (skip_whitespace (String "," ?s)) with (String "," s). cbv iota.
    rewrite IH.
    + rewrite <- app_assoc. reflexivity.
    + discriminate.
    + simpl in Hlen |- *. lia.
    + exact Hok.
    + rewrite fmap_app, <- app_assoc. exact Hnodup.
Qed.

Lemma length_append (s1 s2 : string) :
  String.length (s1 +:+ s2) = (String.length s1 + String.length s2)%nat.
Proof.
  induction s1 as [|c s1 IH]; [reflexivity|].
  change (S (String.length (s1 +:+ s2)) = S (String.length s1 + String.length s2)).
  rewrite IH. reflexivity.
Qed.

Lemma length_members (fields : list (string * Z)) :
  (length fields <= String.length (String.concat "," (member_text <$> fields)))%nat.
Proof.
  induction fields as [|p fields IH]; [simpl; lia|].
  destruct fields as [|q fields].
  - change (String.concat "," (member_text <$> [p])) with (member_text p).
    unfold member_text. simpl. lia.
  - change (String.concat "," (member_text <$> p :: q :: fields))
      with (member_text p +:+ "," +:+ String.concat "," (member_text <$> q :: fields)).
    rewrite !length_append. simpl in IH |- *. lia.
Qed.

Lemma JSON_parse_flat_object (fields : list (string * Z)) :
  Forall field_ok fields ->
  NoDup fields.*1 ->
  JSON_parse (flat_text fields) = Some (Normal (flat_object fields)).
Proof.
  intros Hok Hnodup.
  destruct fields as [|p fields]; [vm_compute; reflexivity|].
  unfold JSON_parse, flat_text.
  set (body := String.concat "," (member_text <$> p :: fields)).
  change ("{" +:+ body +:+ "}") with (String "{" (body +:+ "}")).
  change (String.length (String "{" (body +:+ "}")))
    with (S (String.length (body +:+ "}"))).
  assert (Hbody : exists t, body = String dquote t).
  { unfold body. destruct fields as [|q fields]; eexists; reflexivity. }
  destruct Hbody as [t Hbody].
  assert (Hstep :
    parse_value (S (S (String.length (body +:+ "}")))) (String "{" (body +:+ "}"))
    = parse_members (parse_value (S (String.length (body +:+ "}"))))
        (S (String.length (body +:+ "}"))) (body +:+ "}") []).
  { rewrite Hbody. reflexivity. }
  rewrite Hstep. unfold body.
  rewrite (parse_members_flat _ (p :: fields) [] _ "").
  - reflexivity.
  - discriminate.
  - fold body. rewrite length_append. pose proof (length_members (p :: fields)).
    fold body in H. lia.
  - exact Hok.
  - exact Hnodup.
Qed.

End FlatObjects.

(** X16.  Round trip of a flat object.  For fields with plain, distinct keys
    and integers that a number holds exactly, [getJSON] writes the members
    between braces, and [fromJSON] reads that text back into an object with
    the given prototype whose own properties are the same fields in the same
    order. *)
Theorem flat_object_round_trip (p : Prototype) (fields : list (string * Z)) :
  Forall field_ok fields ->
  NoDup fields.*1 ->
  getJSON (flat_object fields) = Some (flat_text fields) /\
  JSON_parse (flat_text fields) = Some (Normal (flat_object fields)) /\
  fromJSON (ProtoObject p) (flat_text fields) =
    Some (Normal {| prototype := Some p;
                    own := (fun field => (field.1, data_property (JNumber field.2)))
                             <$> fields |}).
Proof.
  intros Hok Hnodup.
  pose proof (JSON_parse_flat_object fields Hok Hnodup) as Hparse.
  split; [exact (getJSON_flat_object fields Hok)|].
  split; [exact Hparse|].
  unfold fromJSON. rewrite Hparse.
  unfold flat_object. cbn [pbind Object_getOwnPropertyDescriptors Object_create].
  rewrite <- list_fmap_compose. reflexivity.
Qed.

Lemma flat_object_round_trip_witness :
  fromJSON (ProtoObject Rectangle_prototype)
    (flat_text [("height", 10); ("width", 20); ("depth", -3)]) =
  Some (Normal {| prototype := Some Rectangle_prototype;
                  own := [("height", data_property (JNumber 10));
                          ("width", data_property (JNumber 20));
                          ("depth", data_property (JNumber (-3)))] |}).
Proof.
  apply (flat_object_round_trip Rectangle_prototype
           [("height", 10); ("width", 20); ("depth", -3)]).
  - repeat constructor.
  - apply (bool_decide_unpack (NoDup _)). vm_compute. exact I.
Defined.

(** X17.  Writing a rectangle and reading it back with
    [Rectangle.prototype] gives the object [new Rectangle(w, h)] builds,
    for all integers [w] and [h] that a number holds exactly; its
    [getArea()] returns their product when a number holds it exactly. *)
Theorem rectangle_round_trip_any (w h : Z) :
  safe_integer w = true ->
  safe_integer h = true ->
  exists text,
    getJSON (flat_object [("width", w); ("height", h)]) = Some text /\
    fromJSON (ProtoObject Rectangle_prototype) text
    = Some (Normal (Rectangle (JNumber w) (JNumber h))) /\
    (safe_integer (h * w) = true ->
     pbind (fromJSON (ProtoObject Rectangle_prototype) text)
       (fun obj => call_method obj "getArea")
     = Some (Normal (JNumber (h * w)))).
Proof.
  intros Hw Hh.
  assert (Hok : Forall field_ok [("width", w); ("height", h)]).
  { repeat constructor; assumption. }
  assert (Hnodup : NoDup [("width", w); ("height", h)].*1).
  { apply (bool_decide_unpack (NoDup _)). vm_compute. exact I. }
  assert (Hread : fromJSON (ProtoObject Rectangle_prototype)
                    (flat_text [("width", w); ("height", h)])
                  = Some (Normal (Rectangle (JNumber w) (JNumber h)))).
  { unfold fromJSON.
    rewrite (JSON_parse_flat_object _ Hok Hnodup).
    unfold Rectangle. cbn [pbind flat_object Object_getOwnPropertyDescriptors Object_create].
    do 2 f_equal. }
  exists (flat_text [("width", w); ("height", h)]).
  split; [exact (getJSON_flat_object _ Hok)|].
  split; [exact Hread|].
  intros Harea. rewrite Hread. cbn [pbind].
  unfold call_method. rewrite Rectangle_own.
  change (own_property [("width", data_property (JNumber w));
                        ("height", data_property (JNumber h))] "getArea")
    with (@None PropertyDescriptor).
  change (prototype (Rectangle (JNumber w) (JNumber h))) with (Some Rectangle_prototype).
  cbv beta iota.
  change (find_method (methods Rectangle_prototype) "getArea")
    with (Some (fun this : string -> option Json => multiply (this "height") (this "width"))).
  cbv beta iota. unfold Get. rewrite Rectangle_own.
  change (desc_value <$> own_property
            [("width", data_property (JNumber w)); ("height", data_property (JNumber h))]
            "height") with (Some (JNumber h)).
  change (desc_value <$> own_property
            [("width", data_property (JNumber w)); ("height", data_property (JNumber h))]
            "width") with (Some (JNumber w)).
  unfold multiply. rewrite Harea. reflexivity.
Qed.

Lemma rectangle_round_trip_any_witness :
  exists text,
    getJSON (flat_object [("width", 7); ("height", -2)]) = Some text /\
    fromJSON (ProtoObject Rectangle_prototype) text
    = Some (Normal (Rectangle (JNumber 7) (JNumber (-2)))) /\
    (safe_integer (-2 * 7) = true ->
     pbind (fromJSON (ProtoObject Rectangle_prototype) text)
       (fun obj => call_method obj "getArea")
     = Some (Normal (JNumber (-2 * 7)))).
Proof.
  apply (rectangle_round_trip_any 7 (-2)); reflexivity.
Defined.

(** X18.  A number does not come back: [getJSON] writes an integer that a
    number holds exactly in decimal, and [fromJSON] reads that text into an
    object with the given prototype and no own property, since the wrapper
    of a number owns none. *)
Theorem number_text_gives_empty_object (p : Prototype) (n : Z) :
  safe_integer n = true ->
  getJSON (JNumber n) = Some (pretty n) /\
  JSON_parse (pretty n) = Some (Normal (JNumber n)) /\
  fromJSON (ProtoObject p) (pretty n) = Some (Normal {| prototype := Some p; own := [] |}).
Proof.
  intros Hsafe.
  assert (Hparse : JSON_parse (pretty n) = Some (Normal (JNumber n))).
  { unfold JSON_parse.
    rewrite <- (append_empty_r (pretty n)) at 2.
    rewrite (parse_value_pretty _ n "" Hsafe eq_refl eq_refl). reflexivity. }
  split; [|split].
  - unfold getJSON, JSON_stringify. cbn [SerializeJSONProperty].
    rewrite Hsafe. reflexivity.
  - exact Hparse.
  - unfold fromJSON. rewrite Hparse. reflexivity.
Qed.

Lemma number_text_gives_empty_object_witness :
  fromJSON (ProtoObject Rectangle_prototype) (pretty 42)
  = Some (Normal {| prototype := Some Rectangle_prototype; own := [] |}).
Proof.
  apply (number_text_gives_empty_object Rectangle_prototype 42). reflexivity.
Defined.
